(** * BearSSLClient: a TLS client session over a blocking byte stream

    A shallow embedding of [src/BearSSLClient.cpp].  The session talks to four
    collaborators whose code is not part of the translation unit: the raw
    [Client] stream, the ECCX08 secure element, the Arduino pseudo-random
    generator and the BearSSL engine with its [br_sslio] adapter.  Every call
    that leaves the translation unit is a [Call]; the collaborators answer
    through one abstract transition function [respond], and the calls made are
    kept, in order and with their replies, in the [trace] of the [World]. *)

From Stdlib Require Import ZArith List Bool String Lia.
Import ListNotations.
Local Open Scope Z_scope.

(** ** Machine integers (32-bit target: [int], [unsigned] and [size_t] are
    32 bits wide, [uint8_t] is 8 bits wide) *)

Definition SIZE_MOD : Z := 2 ^ 32.
Definition INT_MAX : Z := 2 ^ 31 - 1.
Definition INT_MIN : Z := - 2 ^ 31.

(** Conversion to [size_t] / [unsigned]: reduction modulo 2^32. *)
Definition to_size_t (z : Z) : Z := z mod SIZE_MOD.

(** Conversion to [int]: the two's complement value of the low 32 bits. *)
Definition to_int (z : Z) : Z := (z + 2 ^ 31) mod SIZE_MOD - 2 ^ 31.

(** Conversion to [unsigned char]. *)
Definition to_uint8 (z : Z) : Z := z mod 256.

(** The null pointer. *)
Definition NULL : Z := 0.

(** ** Data model *)

(** [br_ec_private_key]: curve identifier, pointer to the key bytes, length. *)
Record br_ec_private_key := mk_ec_key {
  curve : Z;
  x : Z;
  xlen : Z
}.

(** [br_x509_certificate]: pointer to the encoded certificate and its length. *)
Record br_x509_certificate := mk_cert {
  data : Z;
  data_len : Z
}.

(** The fields of a [BearSSLClient] that the translation unit reads and writes
    itself.  The stream behind [_client], the contexts [_sc], [_xc], [_ioc] and
    the record buffer [_iobuf] are only ever handed to the collaborators and
    live in their state. *)
Record BearSSLClient := mk_session {
  _ecKey : br_ec_private_key;
  _ecCert : br_x509_certificate
}.

(** A fixed-size byte array as its cells; [read_array a n] is what a callee
    given the array and the length [n] reads. *)
Definition array := nat -> Z.

Definition read_array (a : array) (n : nat) : list Z := map a (seq 0 n).

Definition array_set (a : array) (i : nat) (v : Z) : array :=
  fun j => if Nat.eqb j i then v else a j.

(** A callee that is given the array and the length [n] and writes the bytes
    [bs] into it: cells beyond [n] or beyond the bytes written keep their
    contents. *)
Definition array_store (a : array) (n : nat) (bs : list Z) : array :=
  fun j => if Nat.ltb j n then nth j bs (a j) else a j.

(** ** Calls that leave the translation unit *)

Inductive Call :=
(* the raw stream behind _client *)
| Client_connect_ip (ip : Z) (port : Z)
| Client_connect_host (host : string) (port : Z)
| Client_connected
| Client_read (buf : Z) (len : Z)
| Client_write (buf : Z) (len : Z)
(* the secure element *)
| ECCX08_begin
| ECCX08_locked
| ECCX08_random (len : Z)
(* Arduino's random(min, max) *)
| random (lo hi : Z)
(* the engine *)
| arduino_client_profile (pk_curve : Z) (pk_qlen : Z)
| br_ssl_engine_set_buffer (len : Z) (bidi : Z)
| br_ssl_engine_set_ecdsa
| br_ssl_client_set_single_ec
    (chain : br_x509_certificate) (chain_len : Z) (sk : br_ec_private_key)
    (allowed_usages : Z) (cert_issuer_key_type : Z)
| br_ssl_engine_inject_entropy (bytes : list Z)
| br_ssl_client_reset (server_name : option string) (resume_session : Z)
| br_ssl_engine_current_state
(* the record I/O adapter *)
| br_sslio_init
| br_sslio_write (src : Z) (len : Z)
| br_sslio_flush.

(** What a collaborator hands back: the returned integer and, for a call given
    an output buffer, the bytes it wrote there. *)
Record Reply := mk_reply {
  ret : Z;
  out : list Z
}.

(** The collaborators as one abstract state machine. *)
Class Externals (X : Type) := respond : X -> Call -> Reply * X.

Record World (X : Type) := mk_world {
  ext : X;
  trace : list (Call * Reply)
}.
Arguments mk_world {X} _ _.
Arguments ext {X} _.
Arguments trace {X} _.

(** Declarations that come from headers outside the translation unit: the
    engine's state bits, its key-type and curve constants, the size of the
    pinned key [TA0_EC_Q] and [sizeof(_iobuf)].  The macros are non-negative
    [int] constants, so the usual arithmetic conversions leave their values
    unchanged. *)
Class Headers := {
  BR_SSL_CLOSED : Z;
  BR_SSL_SENDAPP : Z;
  BR_EC_secp256r1 : Z;
  BR_KEYTYPE_KEYX : Z;
  BR_KEYTYPE_SIGN : Z;
  BR_KEYTYPE_EC : Z;
  sizeof_TA0_EC_Q : Z;
  sizeof_iobuf : Z
}.

(** ** A small state monad over the world *)

Definition M (X T : Type) : Type := World X -> T * World X.

Definition mret {X T} (v : T) : M X T := fun w => (v, w).

Definition bind {X T U} (m : M X T) (k : T -> M X U) : M X U :=
  fun w => k (fst (m w)) (snd (m w)).

Notation "v <- m ;; k" := (bind m (fun v => k))
  (at level 61, m at next level, right associativity).
Notation "m ;;; k" := (bind m (fun _ => k))
  (at level 61, right associativity).

(** Make one call: the collaborators move on and the call is logged. *)
Definition call {X} `{Externals X} (c : Call) : M X Reply :=
  fun w =>
    let r := fst (respond (ext w) c) in
    (r, mk_world (snd (respond (ext w) c)) (trace w ++ [(c, r)])).

(** The events a computation added to the trace. *)
Definition new_events {X} (w w' : World X) : list (Call * Reply) :=
  skipn (List.length (trace w)) (trace w').

(** ** The session *)

Section Session.

Context {X : Type} `{Ext : Externals X} `{Hdr : Headers}.

(** The indeterminate contents of an uninitialised automatic array. *)
Variable indeterminate : array.

(** [BearSSLClient::BearSSLClient(Client& client)] *)
Definition BearSSLClient_new : BearSSLClient :=
  mk_session (mk_ec_key 0 NULL 0) (mk_cert NULL 0).

(** [void BearSSLClient::setEccSlot(int ecc508KeySlot, const byte cert[],
    int certLength)]: the slot number is cast to a pointer, the length to
    [size_t]. *)
Definition setEccSlot (ecc508KeySlot : Z) (cert : Z) (certLength : Z)
    (this : BearSSLClient) : BearSSLClient :=
  mk_session (mk_ec_key 23 (to_size_t ecc508KeySlot) 32)
             (mk_cert cert (to_size_t certLength)).

(** *** write *)

(** The [while (written < size)] loop of [write]; the result is [buf] and
    [written] when the loop is left, [None] while it is still running after
    [fuel] tests of its condition. *)
Fixpoint write_loop (fuel : nat) (size : Z) (buf written : Z) (w : World X)
    : option (Z * Z) * World X :=
  match fuel with
  | O => (None, w)
  | S fuel' =>
      if written <? size then
        let rw := call (br_sslio_write buf size) w in
        let result := ret (fst rw) in
        if result <? 0 then (Some (buf, written), snd rw)
        else write_loop fuel' size (buf + result)
                        (to_size_t (written + result)) (snd rw)
      else (Some (buf, written), w)
  end.

(** [size_t BearSSLClient::write(const uint8_t *buf, size_t size)] *)
Definition write (fuel : nat) (buf size : Z) (w : World X)
    : option Z * World X :=
  match write_loop fuel size buf 0 w with
  | (None, w1) => (None, w1)
  | (Some (_, written), w1) =>
      if written =? size then
        let rw := call br_sslio_flush w1 in
        if ret (fst rw) <? 0 then (Some 0, snd rw)
        else (Some written, snd rw)
      else (Some written, w1)
  end.

(** The loop variables after exactly [n] iterations that went round, that is
    [written < size] held and the adapter reported no error; [None] when the
    loop is left earlier. *)
Fixpoint write_iters (n : nat) (size : Z) (buf written : Z) (w : World X)
    : option (Z * Z * World X) :=
  match n with
  | O => Some (buf, written, w)
  | S n' =>
      if written <? size then
        let rw := call (br_sslio_write buf size) w in
        let result := ret (fst rw) in
        if result <? 0 then None
        else write_iters n' size (buf + result)
                         (to_size_t (written + result)) (snd rw)
      else None
  end.

(** [size_t BearSSLClient::write(uint8_t b)]: the one-byte buffer is a local
    at address [b_addr]. *)
Definition write_byte (fuel : nat) (b_addr : Z) (w : World X)
    : option Z * World X :=
  write fuel b_addr 1 w.

(** *** connected *)

(** [uint8_t BearSSLClient::connected()] *)
Definition connected : M X Z :=
  c <- call Client_connected ;;
  if ret c =? 0 then mret 0
  else
    s <- call br_ssl_engine_current_state ;;
    let state := ret s in
    if state =? BR_SSL_CLOSED then mret 0 else mret 1.

(** *** The transport callbacks *)

(** [int BearSSLClient::clientRead(void *ctx, unsigned char *buf, size_t len)] *)
Definition clientRead (buf len : Z) : M X Z :=
  c <- call Client_connected ;;
  if ret c =? 0 then mret (-1)
  else
    r <- call (Client_read buf len) ;;
    let result := ret r in
    if result =? -1 then mret 0 else mret result.

(** [int BearSSLClient::clientWrite(void *ctx, const unsigned char *buf,
    size_t len)]: the stream's [size_t] count is converted to [int]. *)
Definition clientWrite (buf len : Z) : M X Z :=
  c <- call Client_connected ;;
  if ret c =? 0 then mret (-1)
  else
    r <- call (Client_write buf len) ;;
    let result := to_int (ret r) in
    if result =? 0 then mret (-1) else mret result.

(** *** connectSSL *)

(** [ECCX08.begin() && ECCX08.locked() && ECCX08.random(entropy, 32)], with
    the short-circuit evaluation of [&&]; the result is the truth value and the
    array as the calls left it. *)
Definition hardware_entropy (entropy : array) : M X (bool * array) :=
  b <- call ECCX08_begin ;;
  if ret b =? 0 then mret (false, entropy)
  else
    l <- call ECCX08_locked ;;
    if ret l =? 0 then mret (false, entropy)
    else
      r <- call (ECCX08_random 32) ;;
      mret (negb (ret r =? 0), array_store entropy 32 (out r)).

(** [for (size_t i = 0; i < sizeof(entropy); i++) entropy[i] = random(0, 255);]
    with [n] iterations left to go. *)
Fixpoint fill_entropy (n : nat) (i : nat) (entropy : array) : M X array :=
  match n with
  | O => mret entropy
  | S n' =>
      r <- call (random 0 255) ;;
      fill_entropy n' (S i) (array_set entropy i (to_uint8 (ret r)))
  end.

(** The guard of the client-authentication block. *)
Definition client_auth_guard (this : BearSSLClient) : bool :=
  negb (data_len (_ecCert this) =? 0) && negb (xlen (_ecKey this) =? 0).

(** [connectSSL] up to and including the first [br_sslio_flush]. *)
Definition connectSSL_setup (this : BearSSLClient) (host : option string)
    : M X unit :=
  call (arduino_client_profile BR_EC_secp256r1 sizeof_TA0_EC_Q) ;;;
  call (br_ssl_engine_set_buffer sizeof_iobuf 1) ;;;
  hw <- hardware_entropy indeterminate ;;
  entropy <-
    (if fst hw then
       call br_ssl_engine_set_ecdsa ;;;
       (if client_auth_guard this then
          call (br_ssl_client_set_single_ec (_ecCert this) 1 (_ecKey this)
                  (Z.lor BR_KEYTYPE_KEYX BR_KEYTYPE_SIGN) BR_KEYTYPE_EC) ;;;
          mret tt
        else mret tt) ;;;
       mret (snd hw)
     else fill_entropy 32 0 (snd hw)) ;;
  call (br_ssl_engine_inject_entropy (read_array entropy 32)) ;;;
  call (br_ssl_client_reset host 0) ;;;
  call br_sslio_init ;;;
  call br_sslio_flush ;;;
  mret tt.

(** The [while (1)] loop that ends [connectSSL]; [None] while it is still
    polling after [fuel] queries. *)
Fixpoint handshake_loop (fuel : nat) (w : World X) : option Z * World X :=
  match fuel with
  | O => (None, w)
  | S fuel' =>
      let rw := call br_ssl_engine_current_state w in
      let state := ret (fst rw) in
      if negb (Z.land state BR_SSL_SENDAPP =? 0) then (Some 1, snd rw)
      else if negb (Z.land state BR_SSL_CLOSED =? 0) then (Some 0, snd rw)
      else handshake_loop fuel' (snd rw)
  end.

(** [int BearSSLClient::connectSSL(const char* host)] *)
Definition connectSSL (this : BearSSLClient) (host : option string)
    (fuel : nat) (w : World X) : option Z * World X :=
  handshake_loop fuel (snd (connectSSL_setup this host w)).

(** *** connect *)

(** [int BearSSLClient::connect(IPAddress ip, uint16_t port)] *)
Definition connect_ip (this : BearSSLClient) (ip port : Z)
    (fuel : nat) (w : World X) : option Z * World X :=
  let rw := call (Client_connect_ip ip port) w in
  if ret (fst rw) =? 0 then (Some 0, snd rw)
  else connectSSL this None fuel (snd rw).

(** [int BearSSLClient::connect(const char* host, uint16_t port)] *)
Definition connect_host (this : BearSSLClient) (host : string) (port : Z)
    (fuel : nat) (w : World X) : option Z * World X :=
  let rw := call (Client_connect_host host port) w in
  if ret (fst rw) =? 0 then (Some 0, snd rw)
  else connectSSL this (Some host) fuel (snd rw).

(** *** Reading the trace *)

(** The world after [k] consecutive [br_ssl_engine_current_state] queries. *)
Fixpoint after_polls (k : nat) (w : World X) : World X :=
  match k with
  | O => w
  | S k' => after_polls k' (snd (call br_ssl_engine_current_state w))
  end.

(** The engine state returned by the [k]-th of a run of consecutive queries
    that starts in [w] (counting from 0). *)
Definition polled_state (k : nat) (w : World X) : Z :=
  ret (fst (call br_ssl_engine_current_state (after_polls k w))).

(** The events of one [connectSSL]. *)
Definition connect_events (this : BearSSLClient) (host : option string)
    (fuel : nat) (w : World X) : list (Call * Reply) :=
  new_events w (snd (connectSSL this host fuel w)).

(** A run of state queries. *)
Definition polls (rs : list Reply) : list (Call * Reply) :=
  map (fun r => (br_ssl_engine_current_state, r)) rs.

(** A run of [random(0, 255)] calls. *)
Definition randoms (rs : list Reply) : list (Call * Reply) :=
  map (fun r => (random 0 255, r)) rs.

(** The calls from the entropy injection to the first flush. *)
Definition setup_tail (host : option string) (entropy : list Z)
    (ri rr rn rf : Reply) : list (Call * Reply) :=
  [(br_ssl_engine_inject_entropy entropy, ri);
   (br_ssl_client_reset host 0, rr);
   (br_sslio_init, rn);
   (br_sslio_flush, rf)].

(** The two calls that open [connectSSL]. *)
Definition setup_head (r1 r2 : Reply) : list (Call * Reply) :=
  [(arduino_client_profile BR_EC_secp256r1 sizeof_TA0_EC_Q, r1);
   (br_ssl_engine_set_buffer sizeof_iobuf 1, r2)].

(** The shapes the calls of [connectSSL_setup] can take, one per path through
    the hardware test. *)
Inductive setup_trace (this : BearSSLClient) (host : option string)
    : list (Call * Reply) -> Prop :=
| setup_begin_failed r1 r2 rb rs ri rr rn rf :
    ret rb = 0 -> List.length rs = 32%nat ->
    setup_trace this host
      (setup_head r1 r2 ++ [(ECCX08_begin, rb)] ++ randoms rs ++
       setup_tail host (map (fun r => to_uint8 (ret r)) rs) ri rr rn rf)
| setup_not_locked r1 r2 rb rl rs ri rr rn rf :
    ret rb <> 0 -> ret rl = 0 -> List.length rs = 32%nat ->
    setup_trace this host
      (setup_head r1 r2 ++ [(ECCX08_begin, rb); (ECCX08_locked, rl)] ++
       randoms rs ++
       setup_tail host (map (fun r => to_uint8 (ret r)) rs) ri rr rn rf)
| setup_random_failed r1 r2 rb rl rx rs ri rr rn rf :
    ret rb <> 0 -> ret rl <> 0 -> ret rx = 0 -> List.length rs = 32%nat ->
    setup_trace this host
      (setup_head r1 r2 ++
       [(ECCX08_begin, rb); (ECCX08_locked, rl); (ECCX08_random 32, rx)] ++
       randoms rs ++
       setup_tail host (map (fun r => to_uint8 (ret r)) rs) ri rr rn rf)
| setup_hardware r1 r2 rb rl rx re rc ri rr rn rf :
    ret rb <> 0 -> ret rl <> 0 -> ret rx <> 0 ->
    setup_trace this host
      (setup_head r1 r2 ++
       [(ECCX08_begin, rb); (ECCX08_locked, rl); (ECCX08_random 32, rx);
        (br_ssl_engine_set_ecdsa, re)] ++
       (if client_auth_guard this
        then [(br_ssl_client_set_single_ec (_ecCert this) 1 (_ecKey this)
                 (Z.lor BR_KEYTYPE_KEYX BR_KEYTYPE_SIGN) BR_KEYTYPE_EC, rc)]
        else []) ++
       setup_tail host
         (read_array (array_store indeterminate 32 (out rx)) 32) ri rr rn rf).

End Session.

(** A bit of [mask] is set in [state]. *)
Definition bit_set (state mask : Z) : Prop := Z.land state mask <> 0.

(** Projections of a trace. *)

Definition is_engine_call (c : Call) : bool :=
  match c with
  | arduino_client_profile _ _ | br_ssl_engine_set_buffer _ _
  | br_ssl_engine_set_ecdsa | br_ssl_client_set_single_ec _ _ _ _ _
  | br_ssl_engine_inject_entropy _ | br_ssl_client_reset _ _
  | br_ssl_engine_current_state
  | br_sslio_init | br_sslio_write _ _ | br_sslio_flush => true
  | _ => false
  end.

Definition is_sslio_write (c : Call) : bool :=
  match c with br_sslio_write _ _ => true | _ => false end.

Definition is_sslio_flush (c : Call) : bool :=
  match c with br_sslio_flush => true | _ => false end.

Definition is_set_single_ec (c : Call) : bool :=
  match c with br_ssl_client_set_single_ec _ _ _ _ _ => true | _ => false end.

(** The payloads of the [br_ssl_engine_inject_entropy] calls, in order. *)
Fixpoint injected (tr : list (Call * Reply)) : list (list Z) :=
  match tr with
  | [] => []
  | (br_ssl_engine_inject_entropy bs, _) :: tr' => bs :: injected tr'
  | _ :: tr' => injected tr'
  end.

(** The values [random(0, 255)] returned, in order. *)
Fixpoint random_values (tr : list (Call * Reply)) : list Z :=
  match tr with
  | [] => []
  | (random 0 255, r) :: tr' => ret r :: random_values tr'
  | _ :: tr' => random_values tr'
  end.

(** The client certificate was registered. *)
Definition registers_client_cert (tr : list (Call * Reply)) : bool :=
  existsb (fun e => is_set_single_ec (fst e)) tr.

(** One of the three hardware conditions was evaluated and came out false. *)
Definition hardware_rng_failed (tr : list (Call * Reply)) : bool :=
  existsb (fun e =>
    match e with
    | (ECCX08_begin, r) | (ECCX08_locked, r) | (ECCX08_random _, r) =>
        ret r =? 0
    | _ => false
    end) tr.

(** All three hardware conditions were evaluated and came out true: only then
    is [ECCX08.random] reached and its result non-zero. *)
Definition hardware_rng_succeeded (tr : list (Call * Reply)) : bool :=
  existsb (fun e =>
    match e with
    | (ECCX08_random _, r) => negb (ret r =? 0)
    | _ => false
    end) tr.

(** The address ranges [(src, n)] the adapter accepted: a non-negative result
    [n] of [br_sslio_write(ctx, src, len)] takes the [n] bytes at [src]. *)
Fixpoint accepted_ranges (tr : list (Call * Reply)) : list (Z * Z) :=
  match tr with
  | [] => []
  | (br_sslio_write src _, r) :: tr' =>
      if ret r <? 0 then accepted_ranges tr'
      else (src, ret r) :: accepted_ranges tr'
  | _ :: tr' => accepted_ranges tr'
  end.

(** The bytes of those ranges, read from the memory [mem]. *)
Definition accepted_bytes (mem : Z -> Z) (tr : list (Call * Reply)) : list Z :=
  flat_map (fun '(src, n) =>
              map (fun k => mem (src + Z.of_nat k)) (seq 0 (Z.to_nat n)))
           (accepted_ranges tr).

(** ** A scriptable stand-in for the collaborators *)

Module Mock.

Record t := mk {
  net_connect : Z;        (* what Client::connect returns *)
  net_connected : Z;      (* what Client::connected returns *)
  net_read : Z;           (* what Client::read returns *)
  net_write : Z;          (* what Client::write returns *)
  se_begin : Z;
  se_locked : Z;
  se_random : Z;
  se_bytes : list Z;      (* what ECCX08.random writes *)
  prng : Z;               (* what random(0, 255) returns *)
  states : list Z;        (* engine states, one per query *)
  accepts : list Z;       (* br_sslio_write results, one per call *)
  flush_result : Z
}.

Definition plain (v : Z) : Reply := mk_reply v [].

Definition step (m : t) (c : Call) : Reply * t :=
  match c with
  | Client_connect_ip _ _ | Client_connect_host _ _ =>
      (plain (net_connect m), m)
  | Client_connected => (plain (net_connected m), m)
  | Client_read _ _ => (plain (net_read m), m)
  | Client_write _ _ => (plain (net_write m), m)
  | ECCX08_begin => (plain (se_begin m), m)
  | ECCX08_locked => (plain (se_locked m), m)
  | ECCX08_random _ => (mk_reply (se_random m) (se_bytes m), m)
  | random _ _ => (plain (prng m), m)
  | br_ssl_engine_current_state =>
      (plain (hd 0 (states m)),
       mk (net_connect m) (net_connected m) (net_read m) (net_write m)
          (se_begin m) (se_locked m) (se_random m) (se_bytes m) (prng m)
          (tl (states m)) (accepts m) (flush_result m))
  | br_sslio_write _ _ =>
      (plain (hd 0 (accepts m)),
       mk (net_connect m) (net_connected m) (net_read m) (net_write m)
          (se_begin m) (se_locked m) (se_random m) (se_bytes m) (prng m)
          (states m) (tl (accepts m)) (flush_result m))
  | br_sslio_flush => (plain (flush_result m), m)
  | _ => (plain 0, m)
  end.

#[export] Instance externals : Externals t := step.

(** BearSSL's values for the state bits and constants; a 16-byte record
    buffer keeps the examples small. *)
#[export] Instance headers : Headers := {
  BR_SSL_CLOSED := 1;
  BR_SSL_SENDAPP := 8;
  BR_EC_secp256r1 := 23;
  BR_KEYTYPE_KEYX := 16;
  BR_KEYTYPE_SIGN := 32;
  BR_KEYTYPE_EC := 2;
  sizeof_TA0_EC_Q := 65;
  sizeof_iobuf := 16
}.

(** A healthy set-up: stream up, secure element locked and working, the
    handshake done at the first query. *)
Definition healthy : t :=
  mk 1 1 0 0 1 1 1 (repeat 170 32) 7 [8] [] 0.

Definition start (m : t) : World t := mk_world m [].

Definition zeros : array := fun _ => 0.

(** Scenarios. *)

(** The adapter has room for 3 bytes of plaintext per record: it takes 3 of
    the 4 bytes offered, twice. *)
Definition short_write : t :=
  mk 1 1 0 0 1 1 1 (repeat 170 32) 7 [8] [3; 3] 0.

(** The adapter takes 3 bytes, then reports an error. *)
Definition error_after_three : t :=
  mk 1 1 0 0 1 1 1 (repeat 170 32) 7 [8] [3; -1] 0.

(** The adapter takes all 4 bytes, then the flush fails. *)
Definition flush_fails : t :=
  mk 1 1 0 0 1 1 1 (repeat 170 32) 7 [8] [4] (-1).

(** No secure element answers; the handshake is done at the second query. *)
Definition no_secure_element : t :=
  mk 1 1 0 0 0 1 1 (repeat 170 32) 7 [0; 8] [] 0.

(** The handshake is done at the third query. *)
Definition slow_handshake : t :=
  mk 1 1 0 0 1 1 1 (repeat 170 32) 7 [0; 0; 8] [] 0.

(** The peer closes during the handshake. *)
Definition handshake_refused : t :=
  mk 1 1 0 0 1 1 1 (repeat 170 32) 7 [0; 1] [] 0.

(** The stream cannot connect and reports itself disconnected. *)
Definition unplugged : t :=
  mk 0 0 0 0 1 1 1 (repeat 170 32) 7 [8] [] 0.

(** The stream is connected, has nothing to read and writes nothing. *)
Definition idle : t :=
  mk 1 1 (-1) 0 1 1 1 (repeat 170 32) 7 [8] [] 0.

(** The stream is connected, reads 5 bytes and writes 5 bytes. *)
Definition busy : t :=
  mk 1 1 5 5 1 1 1 (repeat 170 32) 7 [8] [] 0.

(** The stream is connected but the engine has closed. *)
Definition engine_closed : t :=
  mk 1 1 0 0 1 1 1 (repeat 170 32) 7 [1] [] 0.

(** A memory whose byte at address [a] is [a] itself. *)
Definition memory : Z -> Z := fun a => to_uint8 a.

End Mock.

(** ** What the secure element answers

    The answers are the collaborators' own: they are read off [respond] in
    the world where [connectSSL] puts its hardware test, whether or not the
    program goes on to ask. *)

Section HardwareTest.

Context {X : Type} `{Ext : Externals X} `{Hdr : Headers}.
Variable indeterminate : array.

(** The world after the two calls that open [connectSSL]. *)
Definition before_hardware_test (w : World X) : World X :=
  snd (call (br_ssl_engine_set_buffer sizeof_iobuf 1)
         (snd (call (arduino_client_profile BR_EC_secp256r1 sizeof_TA0_EC_Q)
                 w))).

(** The answer to [ECCX08.begin()] there, to [ECCX08.locked()] after it, and
    to [ECCX08.random(entropy, 32)] after both. *)
Definition provider_begin (w : World X) : Reply :=
  fst (call ECCX08_begin (before_hardware_test w)).

Definition provider_locked (w : World X) : Reply :=
  fst (call ECCX08_locked (snd (call ECCX08_begin (before_hardware_test w)))).

Definition provider_random (w : World X) : Reply :=
  fst (call (ECCX08_random 32)
         (snd (call ECCX08_locked
                 (snd (call ECCX08_begin (before_hardware_test w)))))).

(** The provider begins, is locked and fills the buffer. *)
Definition provider_ready (w : World X) : Prop :=
  ret (provider_begin w) <> 0 /\
  ret (provider_locked w) <> 0 /\
  ret (provider_random w) <> 0.

(** One of the three fails. *)
Definition provider_fails (w : World X) : Prop :=
  ret (provider_begin w) = 0 \/
  ret (provider_locked w) = 0 \/
  ret (provider_random w) = 0.

(** The shapes of [setup_trace], with the three answers [pb], [pl] and [px]
    of the provider in the places where the program asked for them. *)
Inductive setup_trace_of (this : BearSSLClient) (host : option string)
    (pb pl px : Reply) : list (Call * Reply) -> Prop :=
| of_begin_failed r1 r2 rs ri rr rn rf :
    ret pb = 0 -> List.length rs = 32%nat ->
    setup_trace_of this host pb pl px
      (setup_head r1 r2 ++ [(ECCX08_begin, pb)] ++ randoms rs ++
       setup_tail host (map (fun r => to_uint8 (ret r)) rs) ri rr rn rf)
| of_not_locked r1 r2 rs ri rr rn rf :
    ret pb <> 0 -> ret pl = 0 -> List.length rs = 32%nat ->
    setup_trace_of this host pb pl px
      (setup_head r1 r2 ++ [(ECCX08_begin, pb); (ECCX08_locked, pl)] ++
       randoms rs ++
       setup_tail host (map (fun r => to_uint8 (ret r)) rs) ri rr rn rf)
| of_random_failed r1 r2 rs ri rr rn rf :
    ret pb <> 0 -> ret pl <> 0 -> ret px = 0 -> List.length rs = 32%nat ->
    setup_trace_of this host pb pl px
      (setup_head r1 r2 ++
       [(ECCX08_begin, pb); (ECCX08_locked, pl); (ECCX08_random 32, px)] ++
       randoms rs ++
       setup_tail host (map (fun r => to_uint8 (ret r)) rs) ri rr rn rf)
| of_hardware r1 r2 re rc ri rr rn rf :
    ret pb <> 0 -> ret pl <> 0 -> ret px <> 0 ->
    setup_trace_of this host pb pl px
      (setup_head r1 r2 ++
       [(ECCX08_begin, pb); (ECCX08_locked, pl); (ECCX08_random 32, px);
        (br_ssl_engine_set_ecdsa, re)] ++
       (if client_auth_guard this
        then [(br_ssl_client_set_single_ec (_ecCert this) 1 (_ecKey this)
                 (Z.lor BR_KEYTYPE_KEYX BR_KEYTYPE_SIGN) BR_KEYTYPE_EC, rc)]
        else []) ++
       setup_tail host
         (read_array (array_store indeterminate 32 (out px)) 32) ri rr rn rf).

End HardwareTest.

(** A secure element that begins and would fill the buffer, but is not
    locked. *)
Definition unlocked_secure_element : Mock.t :=
  Mock.mk 1 1 0 0 1 0 1 (repeat 170 32) 7 [8] [] 0.

(** A secure element that begins and is locked, but fails to fill the
    buffer. *)
Definition failing_secure_element : Mock.t :=
  Mock.mk 1 1 0 0 1 1 0 (repeat 170 32) 7 [8] [] 0.

(** ** The rest of the stream interface

    [available], [read], [peek], [flush], [stop] and the boolean conversion
    reach collaborators through calls of their own.  They are added beside
    [Call]; the collaborators that answer both kinds keep one log of all
    calls, so that the operations above and the ones below run in the same
    world and their calls interleave in one record. *)

Inductive StreamCall :=
| br_sslio_read_available
| br_sslio_read (dst : Z) (len : Z)
| br_sslio_peek (dst : Z) (len : Z)
| br_sslio_close
| Client_flush
| Client_stop
| Client_bool.

Definition AnyCall : Type := (Call + StreamCall)%type.

Class StreamExternals (X : Type) := respond_any : X -> AnyCall -> Reply * X.

(** The collaborators together with the log of every call made so far. *)
Definition Logged (X : Type) : Type := (X * list (AnyCall * Reply))%type.

#[global] Instance logged_externals {X : Type} `{StreamExternals X}
    : Externals (Logged X) :=
  fun xl c =>
    let r := respond_any (fst xl) (inl c) in
    (fst r, (snd r, snd xl ++ [(inl c, fst r)])).

Definition call_stream {X : Type} `{StreamExternals X} (c : StreamCall)
    : M (Logged X) Reply :=
  fun w =>
    let r := respond_any (fst (ext w)) (inr c) in
    (fst r, mk_world (snd r, snd (ext w) ++ [(inr c, fst r)]) (trace w)).

(** The log of all calls, and what a computation added to it. *)
Definition log {X : Type} (w : World (Logged X)) : list (AnyCall * Reply) :=
  snd (ext w).

Definition new_log {X : Type} (w w' : World (Logged X))
    : list (AnyCall * Reply) :=
  skipn (List.length (log w)) (log w').

Section Stream.

Context {X : Type} `{SX : StreamExternals X} `{Hdr : Headers}.

(** The indeterminate contents of an uninitialised automatic array. *)
Variable indeterminate : array.

(** [int BearSSLClient::available()] *)
Definition available : M (Logged X) Z :=
  r <- call_stream br_sslio_read_available ;;
  let available := ret r in
  if available <? 0 then mret 0 else mret available.

(** [int BearSSLClient::read(uint8_t *buf, size_t size)]: the result and the
    bytes the adapter stored at [buf]. *)
Definition read (buf size : Z) : M (Logged X) (Z * list Z) :=
  r <- call_stream (br_sslio_read buf size) ;;
  mret (ret r, out r).

(** [int BearSSLClient::read()]: the local [byte b] lives at [b_addr]; the
    [int] result of [read(&b, 1)] is compared with [sizeof(b)] as a
    [size_t]. *)
Definition read_byte (b_addr : Z) : M (Logged X) Z :=
  r <- read b_addr 1 ;;
  let b := array_store indeterminate 1 (snd r) 0%nat in
  if to_size_t (fst r) =? 1 then mret (to_uint8 b) else mret (-1).

(** [int BearSSLClient::peek()] *)
Definition peek (b_addr : Z) : M (Logged X) Z :=
  r <- call_stream (br_sslio_peek b_addr 1) ;;
  let b := array_store indeterminate 1 (out r) 0%nat in
  if to_size_t (ret r) =? 1 then mret (to_uint8 b) else mret (-1).

(** [void BearSSLClient::flush()] *)
Definition flush : M (Logged X) unit :=
  call br_sslio_flush ;;;
  call_stream Client_flush ;;;
  mret tt.

(** [void BearSSLClient::stop()] *)
Definition stop : M (Logged X) unit :=
  c <- call Client_connected ;;
  if ret c =? 0 then mret tt
  else
    s <- call br_ssl_engine_current_state ;;
    (if Z.land (ret s) BR_SSL_CLOSED =? 0
     then call_stream br_sslio_close ;;; mret tt
     else mret tt) ;;;
    call_stream Client_stop ;;;
    mret tt.

(** [BearSSLClient::operator bool()] *)
Definition operator_bool : M (Logged X) bool :=
  r <- call_stream Client_bool ;;
  mret (negb (ret r =? 0)).

End Stream.

(** More projections of a trace. *)

Definition is_set_ecdsa (c : Call) : bool :=
  match c with br_ssl_engine_set_ecdsa => true | _ => false end.

Definition is_ECCX08_locked (c : Call) : bool :=
  match c with ECCX08_locked => true | _ => false end.

Definition is_ECCX08_random (c : Call) : bool :=
  match c with ECCX08_random _ => true | _ => false end.

Definition is_client_reset (c : Call) : bool :=
  match c with br_ssl_client_reset _ _ => true | _ => false end.

(** The arguments of the [br_ssl_client_reset] calls, in order. *)
Fixpoint resets (tr : list (Call * Reply)) : list (option string * Z) :=
  match tr with
  | [] => []
  | (br_ssl_client_reset name resume, _) :: tr' => (name, resume) :: resets tr'
  | _ :: tr' => resets tr'
  end.

Definition is_ECCX08_begin (c : Call) : bool :=
  match c with ECCX08_begin => true | _ => false end.

(** The results, and the bytes stored, of the calls of one kind, in order. *)
Definition results (p : Call -> bool) (tr : list (Call * Reply)) : list Z :=
  map (fun e => ret (snd e)) (filter (fun e => p (fst e)) tr).

Definition outs (p : Call -> bool) (tr : list (Call * Reply)) : list (list Z) :=
  map (fun e => out (snd e)) (filter (fun e => p (fst e)) tr).

(** What follows the first call of one kind. *)
Fixpoint after_first (p : Call -> bool) (tr : list (Call * Reply))
    : list (Call * Reply) :=
  match tr with
  | [] => []
  | e :: tr' => if p (fst e) then tr' else after_first p tr'
  end.

(** A byte the software generator can produce when [random(0, 255)] keeps to
    its exclusive upper bound. *)
Definition below_255 (v : Z) : Prop := 0 <= v < 255.

(** The adapter keeps to its contract for requests of [size] bytes: every
    result is an error or a count between 1 and [size]. *)
Definition adapter_contract {X : Type} `{Externals X} (size : Z) : Prop :=
  forall (x : X) (src : Z),
    let r := ret (fst (respond x (br_sslio_write src size))) in
    r < 0 \/ 1 <= r <= size.

(** ** Collaborators without a state of their own *)

Module Steady.

(** An adapter with room for [room] bytes per call and an engine that stays
    in [state]; the stream is connected and the secure element works. *)
Definition externals (room state : Z) : Externals unit :=
  fun _ c =>
    match c with
    | br_sslio_write _ len => (mk_reply (Z.min room len) [], tt)
    | br_ssl_engine_current_state => (mk_reply state [], tt)
    | br_sslio_flush => (mk_reply 0 [], tt)
    | _ => (mk_reply 1 [], tt)
    end.

Definition start : World unit := mk_world tt [].

End Steady.

(** ** A stand-in for the whole stream interface *)

Module MockStream.

Record t := mk {
  base : Mock.t;
  avail : Z;              (* what br_sslio_read_available returns *)
  rd : Reply;             (* what br_sslio_read returns and stores *)
  pk : Reply;             (* what br_sslio_peek returns and stores *)
  close_result : Z;
  truth : Z               (* what the stream's operator bool gives *)
}.

Definition step (m : t) (c : AnyCall) : Reply * t :=
  match c with
  | inl c0 =>
      (fst (Mock.step (base m) c0),
       mk (snd (Mock.step (base m) c0)) (avail m) (rd m) (pk m)
          (close_result m) (truth m))
  | inr br_sslio_read_available => (Mock.plain (avail m), m)
  | inr (br_sslio_read _ _) => (rd m, m)
  | inr (br_sslio_peek _ _) => (pk m, m)
  | inr br_sslio_close => (Mock.plain (close_result m), m)
  | inr Client_bool => (Mock.plain (truth m), m)
  | inr _ => (Mock.plain 0, m)
  end.

#[export] Instance externals : StreamExternals t := step.

Definition start (m : t) : World (Logged t) := mk_world (m, []) [].

(** One byte, 65, is ready to be read. *)
Definition one_byte (b : Mock.t) : t :=
  mk b 1 (mk_reply 1 [65]) (mk_reply 1 [65]) 0 1.

(** Nothing to read: the adapter reports an error. *)
Definition drained (b : Mock.t) : t :=
  mk b (-1) (mk_reply (-1) []) (mk_reply (-1) []) 0 1.

(** The engine is in a state that has the closed bit and one more. *)
Definition closing : Mock.t :=
  Mock.mk 1 1 0 0 1 1 1 (repeat 170 32) 7 [3] [] 0.

End MockStream.

(** ** Properties *)

Section Properties.

Context {X : Type} `{Ext : Externals X} `{Hdr : Headers}.
Variable indeterminate : array.

(** *** The trace only grows *)

Lemma call_trace (c : Call) (w : World X) :
  trace (snd (call c w)) = trace w ++ [(c, fst (call c w))].
Proof. reflexivity. Qed.

Lemma new_events_app (w w' : World X) (tr : list (Call * Reply)) :
  trace w' = trace w ++ tr -> new_events w w' = tr.
Proof.
  intros E. unfold new_events. rewrite E.
  rewrite skipn_app, skipn_all, Nat.sub_diag. reflexivity.
Qed.

(** *** write *)

Lemma write_loop_after_iters n : forall size buf written w buf' written' w' fuel,
  write_iters n size buf written w = Some (buf', written', w') ->
  write_loop (n + fuel) size buf written w = write_loop fuel size buf' written' w'.
Proof.
  induction n as [|n IH]; intros size buf written w buf' written' w' fuel E;
    cbn [write_iters] in E.
  - inversion E; subst. reflexivity.
  - cbn [Nat.add write_loop].
    destruct (written <? size); [|discriminate].
    cbv zeta in *.
    destruct (ret (fst (call (br_sslio_write buf size) w)) <? 0); [discriminate|].
    now apply IH.
Qed.

Lemma write_iters_trace n : forall size buf written w buf' written' w',
  write_iters n size buf written w = Some (buf', written', w') ->
  exists tr,
    trace w' = trace w ++ tr /\
    List.length tr = n /\
    forallb (fun e => is_sslio_write (fst e)) tr = true.
Proof.
  induction n as [|n IH]; intros size buf written w buf' written' w' E;
    cbn [write_iters] in E.
  - inversion E; subst. exists []. now rewrite app_nil_r.
  - destruct (written <? size); [|discriminate].
    cbv zeta in E.
    destruct (ret (fst (call (br_sslio_write buf size) w)) <? 0); [discriminate|].
    apply IH in E. destruct E as (tr & Et & El & Ef).
    exists ((br_sslio_write buf size, fst (call (br_sslio_write buf size) w)) :: tr).
    rewrite Et, call_trace, <- app_assoc. cbn. rewrite El, Ef. auto.
Qed.

(** When the adapter takes the whole payload in its first call and the flush
    succeeds, [write] makes exactly these two calls and reports [size]. *)
Lemma write_accepted_in_one_call (fuel : nat) (buf size : Z) (w : World X) :
  let r1 := fst (call (br_sslio_write buf size) w) in
  let w1 := snd (call (br_sslio_write buf size) w) in
  let r2 := fst (call br_sslio_flush w1) in
  let w2 := snd (call br_sslio_flush w1) in
  0 < size < SIZE_MOD ->
  ret r1 = size ->
  0 <= ret r2 ->
  (2 <= fuel)%nat ->
  write fuel buf size w = (Some size, w2) /\
  new_events w w2 = [(br_sslio_write buf size, r1); (br_sslio_flush, r2)] /\
  accepted_ranges (new_events w w2) = [(buf, size)].
Proof.
  intros r1 w1 r2 w2 Hs Hr Hf Hfuel.
  assert (Ev : new_events w w2 = [(br_sslio_write buf size, r1); (br_sslio_flush, r2)]).
  { apply new_events_app. subst w2 r2 w1 r1.
    rewrite !call_trace, <- app_assoc. reflexivity. }
  split; [|split; [exact Ev|]].
  - destruct fuel as [|[|fuel]]; [lia|lia|].
    unfold write. cbn [write_loop]. cbv zeta.
    replace (0 <? size) with true by (symmetry; apply Z.ltb_lt; lia).
    fold r1 w1. rewrite Hr.
    replace (size <? 0) with false by (symmetry; apply Z.ltb_ge; lia).
    replace (to_size_t (0 + size)) with size
      by (unfold to_size_t; rewrite Z.add_0_l, Z.mod_small; lia).
    rewrite Z.ltb_irrefl, Z.eqb_refl. fold r2 w2.
    replace (ret r2 <? 0) with false by (symmetry; apply Z.ltb_ge; lia).
    reflexivity.
  - rewrite Ev. cbn [accepted_ranges]. rewrite Hr.
    replace (size <? 0) with false by (symmetry; apply Z.ltb_ge; lia).
    reflexivity.
Qed.

(** After a short first write of [r] bytes the loop goes round once more, and
    the second call offers [size] bytes again, starting at [buf + r]. *)
Lemma write_second_call_after_short_write (fuel : nat) (buf size : Z)
    (w : World X) :
  let rw := call (br_sslio_write buf size) w in
  let r := ret (fst rw) in
  let rw2 := call (br_sslio_write (buf + r) size) (snd rw) in
  0 <= r < size -> size < SIZE_MOD ->
  write_loop (S (S fuel)) size buf 0 w =
    if ret (fst rw2) <? 0 then (Some (buf + r, r), snd rw2)
    else write_loop fuel size (buf + r + ret (fst rw2))
                    (to_size_t (r + ret (fst rw2))) (snd rw2).
Proof.
  intros rw r rw2 Hr Hs.
  cbn [write_loop]. cbv zeta. fold rw. fold r.
  replace (0 <? size) with true by (symmetry; apply Z.ltb_lt; lia).
  replace (r <? 0) with false by (symmetry; apply Z.ltb_ge; lia).
  replace (to_size_t (0 + r)) with r
    by (unfold to_size_t; rewrite Z.add_0_l, Z.mod_small; lia).
  replace (r <? size) with true by (symmetry; apply Z.ltb_lt; lia).
  reflexivity.
Qed.

(** C6: when the adapter reports an error while [K < size] bytes have been
    written ([n] earlier iterations went round), [write] stops at once: it
    returns [K], the failing [br_sslio_write] is the last call it makes, and
    every call it made is a [br_sslio_write], so [br_sslio_flush] is never
    invoked. *)
Theorem write_stops_at_adapter_error (n fuel : nat) (size buf : Z)
    (w : World X) (buf' K : Z) (w' : World X) :
  let r := fst (call (br_sslio_write buf' size) w') in
  let w'' := snd (call (br_sslio_write buf' size) w') in
  write_iters n size buf 0 w = Some (buf', K, w') ->
  K < size ->
  ret r < 0 ->
  (n < fuel)%nat ->
  write fuel buf size w = (Some K, w'') /\
  trace w'' = trace w' ++ [(br_sslio_write buf' size, r)] /\
  List.length (new_events w w'') = S n /\
  forallb (fun e => is_sslio_write (fst e)) (new_events w w'') = true /\
  existsb (fun e => is_sslio_flush (fst e)) (new_events w w'') = false.
Proof.
  intros r w'' Hit HK Hr Hfuel.
  destruct (write_iters_trace _ _ _ _ _ _ _ _ Hit) as (tr & Et & El & Ef).
  assert (Ev : new_events w w'' = tr ++ [(br_sslio_write buf' size, r)]).
  { apply new_events_app. subst w'' r. rewrite call_trace, Et, <- app_assoc.
    reflexivity. }
  split; [|split; [reflexivity|split; [|split]]].
  - unfold write.
    replace fuel with (n + S (fuel - S n))%nat by lia.
    rewrite (write_loop_after_iters _ _ _ _ _ _ _ _ _ Hit).
    cbn [write_loop]. cbv zeta. fold r w''.
    replace (K <? size) with true by (symmetry; apply Z.ltb_lt; lia).
    replace (ret r <? 0) with true by (symmetry; apply Z.ltb_lt; lia).
    replace (K =? size) with false by (symmetry; apply Z.eqb_neq; lia).
    reflexivity.
  - rewrite Ev, length_app, El. cbn. lia.
  - rewrite Ev, forallb_app, Ef. reflexivity.
  - rewrite Ev, existsb_app. cbn. rewrite orb_false_r.
    clear - Ef. induction tr as [|[c rc] tr IH]; [reflexivity|].
    cbn in *. apply andb_prop in Ef. destruct Ef as [Ec Et].
    rewrite (IH Et). destruct c; try discriminate; reflexivity.
Qed.

(** C5: when the loop has taken the full [size] (after [n] iterations) and
    the flush that follows reports a negative result, [write] returns 0. *)
Theorem write_returns_zero_when_flush_fails (n fuel : nat) (size buf : Z)
    (w : World X) (buf' : Z) (w' : World X) :
  let r := fst (call br_sslio_flush w') in
  let w'' := snd (call br_sslio_flush w') in
  write_iters n size buf 0 w = Some (buf', size, w') ->
  ret r < 0 ->
  (n < fuel)%nat ->
  write fuel buf size w = (Some 0, w'') /\
  trace w'' = trace w' ++ [(br_sslio_flush, r)].
Proof.
  intros r w'' Hit Hr Hfuel. split; [|reflexivity].
  unfold write.
  replace fuel with (n + S (fuel - S n))%nat by lia.
  rewrite (write_loop_after_iters _ _ _ _ _ _ _ _ _ Hit).
  cbn [write_loop]. rewrite Z.ltb_irrefl, Z.eqb_refl.
  cbv zeta. fold r w''.
  replace (ret r <? 0) with true by (symmetry; apply Z.ltb_lt; lia).
  reflexivity.
Qed.

(** *** The transport callbacks *)

(** C7: [clientRead] gives -1 for a disconnected stream without reading, and
    otherwise turns the stream's -1 into 0 and passes every other count on;
    [clientWrite] gives -1 for a disconnected stream without writing, turns a
    count of 0 into -1 and passes every count that fits an [int] on. *)
Theorem transport_callbacks_results (buf len : Z) (w : World X) :
  let c := ret (fst (call Client_connected w)) in
  let w1 := snd (call Client_connected w) in
  let rd := call (Client_read buf len) w1 in
  let wr := call (Client_write buf len) w1 in
  (c = 0 -> clientRead buf len w = (-1, w1) /\ clientWrite buf len w = (-1, w1)) /\
  (c <> 0 -> ret (fst rd) = -1 -> clientRead buf len w = (0, snd rd)) /\
  (c <> 0 -> ret (fst rd) <> -1 -> clientRead buf len w = (ret (fst rd), snd rd)) /\
  (c <> 0 -> ret (fst wr) = 0 -> clientWrite buf len w = (-1, snd wr)) /\
  (c <> 0 -> 0 < ret (fst wr) <= INT_MAX ->
     clientWrite buf len w = (ret (fst wr), snd wr)).
Proof.
  intros c w1 rd wr. unfold clientRead, clientWrite, bind, mret.
  fold c w1. cbn [fst snd].
  destruct (Z.eqb_spec c 0) as [Hc|Hc]; cbn beta; fold rd wr.
  - split; [auto|]. repeat split; intros; contradiction.
  - split; [intros; contradiction|].
    split; [intros _ Hr; apply Z.eqb_eq in Hr; now rewrite Hr|].
    split; [intros _ Hr; apply Z.eqb_neq in Hr; now rewrite Hr|].
    split; [intros _ Hr; now rewrite Hr|].
    intros _ Hr.
    assert (E : to_int (ret (fst wr)) = ret (fst wr)).
    { unfold to_int, SIZE_MOD. unfold INT_MAX in Hr.
      rewrite Z.mod_small; lia. }
    rewrite E.
    replace (ret (fst wr) =? 0) with false by (symmetry; apply Z.eqb_neq; lia).
    reflexivity.
Qed.

(** *** connected *)

(** C8: [connected] is 0 for a disconnected stream; for a connected one it is
    0 exactly when the engine state equals [BR_SSL_CLOSED] and 1 for every
    other state. *)
Theorem connected_false_iff_closed (w : World X) :
  let c := ret (fst (call Client_connected w)) in
  let w1 := snd (call Client_connected w) in
  let state := ret (fst (call br_ssl_engine_current_state w1)) in
  (c = 0 -> fst (connected w) = 0) /\
  (c <> 0 -> state = BR_SSL_CLOSED -> fst (connected w) = 0) /\
  (c <> 0 -> state <> BR_SSL_CLOSED -> fst (connected w) = 1) /\
  (c <> 0 -> (fst (connected w) = 0 <-> state = BR_SSL_CLOSED)).
Proof.
  intros c w1 state. unfold connected, bind, mret. fold c w1. cbn [fst snd].
  destruct (Z.eqb_spec c 0) as [Hc|Hc]; cbn beta.
  - cbn [fst]. repeat split; intros; try reflexivity; contradiction.
  - change (ret (fst (call br_ssl_engine_current_state w1))) with state.
    destruct (Z.eqb_spec state BR_SSL_CLOSED) as [Hs|Hs]; cbn [fst];
      repeat split; intros; try reflexivity; try contradiction;
      try discriminate; assumption.
Qed.

(** *** connect *)

(** C9: when the stream's connect fails, [connect] (by address or by name)
    returns 0 whatever the fuel, and the only call it has made is that
    connect: nothing is asked of the engine, the adapter, the secure element
    or the random generator. *)
Theorem connect_fails_before_engine (this : BearSSLClient) (ip : Z)
    (host : string) (port : Z) (fuel : nat) (w : World X) :
  let ri := call (Client_connect_ip ip port) w in
  let rh := call (Client_connect_host host port) w in
  (ret (fst ri) = 0 ->
     connect_ip indeterminate this ip port fuel w = (Some 0, snd ri) /\
     new_events w (snd ri) = [(Client_connect_ip ip port, fst ri)] /\
     existsb (fun e => is_engine_call (fst e)) (new_events w (snd ri)) = false) /\
  (ret (fst rh) = 0 ->
     connect_host indeterminate this host port fuel w = (Some 0, snd rh) /\
     new_events w (snd rh) = [(Client_connect_host host port, fst rh)] /\
     existsb (fun e => is_engine_call (fst e)) (new_events w (snd rh)) = false).
Proof.
  intros ri rh. split; intros Hr.
  - assert (Ev : new_events w (snd ri) = [(Client_connect_ip ip port, fst ri)])
      by (apply new_events_app, call_trace).
    unfold connect_ip. fold ri. rewrite Hr, Ev. auto.
  - assert (Ev : new_events w (snd rh) = [(Client_connect_host host port, fst rh)])
      by (apply new_events_app, call_trace).
    unfold connect_host. fold rh. rewrite Hr, Ev. auto.
Qed.

(** *** The handshake loop *)

Lemma handshake_loop_polls n : forall (w : World X),
  (forall i, (i < n)%nat ->
     ~ bit_set (polled_state i w) BR_SSL_SENDAPP /\
     ~ bit_set (polled_state i w) BR_SSL_CLOSED) ->
  (forall fuel, (fuel <= n)%nat ->
     handshake_loop fuel w = (None, after_polls fuel w)) /\
  (forall fuel, (n < fuel)%nat ->
     handshake_loop fuel w = handshake_loop (fuel - n) (after_polls n w)).
Proof.
  induction n as [|n IH]; intros w Hund.
  - split; intros fuel Hf.
    + replace fuel with 0%nat by lia. reflexivity.
    + now rewrite Nat.sub_0_r.
  - assert (H0 := Hund 0%nat ltac:(lia)).
    unfold polled_state, bit_set in H0. cbn [after_polls] in H0.
    destruct H0 as [Hs Hc].
    assert (Hs' : (Z.land (ret (fst (call br_ssl_engine_current_state w)))
                     BR_SSL_SENDAPP =? 0) = true) by (apply Z.eqb_eq; lia).
    assert (Hc' : (Z.land (ret (fst (call br_ssl_engine_current_state w)))
                     BR_SSL_CLOSED =? 0) = true) by (apply Z.eqb_eq; lia).
    destruct (IH (snd (call br_ssl_engine_current_state w))) as [IH1 IH2].
    { intros i Hi. apply (Hund (S i)). lia. }
    split; intros [|fuel] Hf; try reflexivity; try lia;
      cbn [handshake_loop after_polls Nat.sub]; cbv zeta;
      rewrite Hs', Hc'; cbn [negb].
    + apply IH1. lia.
    + apply IH2. lia.
Qed.

(** C2: as long as the engine state shows neither [BR_SSL_SENDAPP] nor
    [BR_SSL_CLOSED], [connectSSL] has not returned, however many queries it
    is given; it returns 1 at the first query that shows [BR_SSL_SENDAPP],
    and 0 at the first query that shows [BR_SSL_CLOSED] (without
    [BR_SSL_SENDAPP], which is tested first). *)
Theorem connectSSL_returns_on_sendapp_or_closed (this : BearSSLClient)
    (host : option string) (w : World X) (n : nat) :
  let w1 := snd (connectSSL_setup indeterminate this host w) in
  (forall i, (i < n)%nat ->
     ~ bit_set (polled_state i w1) BR_SSL_SENDAPP /\
     ~ bit_set (polled_state i w1) BR_SSL_CLOSED) ->
  (forall fuel, (fuel <= n)%nat ->
     fst (connectSSL indeterminate this host fuel w) = None) /\
  (bit_set (polled_state n w1) BR_SSL_SENDAPP ->
   forall fuel, (n < fuel)%nat ->
     connectSSL indeterminate this host fuel w = (Some 1, after_polls (S n) w1)) /\
  (~ bit_set (polled_state n w1) BR_SSL_SENDAPP ->
   bit_set (polled_state n w1) BR_SSL_CLOSED ->
   forall fuel, (n < fuel)%nat ->
     connectSSL indeterminate this host fuel w = (Some 0, after_polls (S n) w1)).
Proof.
  intros w1 Hund. destruct (handshake_loop_polls n w1 Hund) as [H1 H2].
  unfold connectSSL. fold w1.
  assert (Hlast : after_polls (S n) w1
                  = snd (call br_ssl_engine_current_state (after_polls n w1))).
  { clear. generalize w1. induction n as [|n IH]; intros w0; [reflexivity|].
    cbn [after_polls]. rewrite <- IH. reflexivity. }
  split; [|split].
  - intros fuel Hf. now rewrite H1.
  - intros Hs fuel Hf. rewrite (H2 fuel Hf).
    destruct (fuel - n)%nat as [|k] eqn:E; [lia|].
    cbn [handshake_loop]. cbv zeta.
    unfold bit_set, polled_state in Hs. apply Z.eqb_neq in Hs.
    rewrite Hs, Hlast. reflexivity.
  - intros Hs Hc fuel Hf. rewrite (H2 fuel Hf).
    destruct (fuel - n)%nat as [|k] eqn:E; [lia|].
    cbn [handshake_loop]. cbv zeta.
    unfold bit_set, polled_state in Hs, Hc.
    assert (Hs' : (Z.land (ret (fst (call br_ssl_engine_current_state
                     (after_polls n w1)))) BR_SSL_SENDAPP =? 0) = true)
      by (apply Z.eqb_eq; lia).
    apply Z.eqb_neq in Hc. rewrite Hs', Hc, Hlast. reflexivity.
Qed.

(** *** The calls of connectSSL *)

Lemma map_seq_nth (f : nat -> Z) (g : Reply -> Z) (d : Reply) (rs : list Reply) :
  forall s,
  (forall k, (k < List.length rs)%nat -> f (s + k)%nat = g (nth k rs d)) ->
  map f (seq s (List.length rs)) = map g rs.
Proof.
  induction rs as [|r rs IH]; intros s Hf; [reflexivity|].
  cbn [List.length seq map]. f_equal.
  - specialize (Hf 0%nat ltac:(cbn; lia)). now rewrite Nat.add_0_r in Hf.
  - apply IH. intros k Hk. specialize (Hf (S k) ltac:(cbn; lia)).
    cbn [nth] in Hf. rewrite <- Hf. f_equal. lia.
Qed.

Lemma fill_entropy_spec n : forall (i : nat) (a : array) (w : World X),
  exists rs,
    List.length rs = n /\
    trace (snd (fill_entropy n i a w)) = trace w ++ randoms rs /\
    forall j,
      fst (fill_entropy n i a w) j =
        if (i <=? j)%nat && (j <? i + n)%nat
        then to_uint8 (ret (nth (j - i) rs (mk_reply 0 [])))
        else a j.
Proof.
  induction n as [|n IH]; intros i a w.
  - exists []. split; [reflexivity|]. split.
    + cbn [fill_entropy]. unfold mret, randoms. cbn [snd map].
      now rewrite app_nil_r.
    + intros j. cbn [fill_entropy]. unfold mret. cbn [fst].
      destruct (Nat.leb_spec i j); destruct (Nat.ltb_spec j (i + 0));
        try reflexivity; lia.
  - cbn [fill_entropy]. unfold bind.
    set (rw := call (random 0 255) w).
    destruct (IH (S i) (array_set a i (to_uint8 (ret (fst rw)))) (snd rw))
      as (rs & Hl & Ht & Hc).
    exists (fst rw :: rs). split; [cbn; lia|]. split.
    + rewrite Ht. subst rw. rewrite call_trace, <- app_assoc. reflexivity.
    + intros j. rewrite Hc. unfold array_set.
      destruct (Nat.leb_spec (S i) j); destruct (Nat.ltb_spec j (S i + n));
        destruct (Nat.leb_spec i j); destruct (Nat.ltb_spec j (i + S n));
        destruct (Nat.eqb_spec j i); cbn [andb]; try lia; try reflexivity.
      * replace (j - i)%nat with (S (j - S i)) by lia. reflexivity.
      * subst j. rewrite Nat.sub_diag. reflexivity.
Qed.

Lemma fill_entropy_bytes (a : array) (w : World X) :
  exists rs,
    List.length rs = 32%nat /\
    trace (snd (fill_entropy 32 0 a w)) = trace w ++ randoms rs /\
    read_array (fst (fill_entropy 32 0 a w)) 32
      = map (fun r => to_uint8 (ret r)) rs.
Proof.
  destruct (fill_entropy_spec 32 0 a w) as (rs & Hl & Ht & Hc).
  exists rs. repeat split; try assumption.
  unfold read_array.
  replace (seq 0 32) with (seq 0 (List.length rs)) by now rewrite Hl.
  apply (map_seq_nth _ _ (mk_reply 0 [])).
  intros k Hk. rewrite Hc. cbn [Nat.add Nat.leb andb].
  destruct (Nat.ltb_spec k 32); [|lia]. now rewrite Nat.sub_0_r.
Qed.

Lemma setup_trace_intro (this : BearSSLClient) (host : option string)
    (w w' : World X) (tr : list (Call * Reply)) :
  setup_trace indeterminate this host tr ->
  trace w' = trace w ++ tr ->
  exists tr', trace w' = trace w ++ tr' /\
              setup_trace indeterminate this host tr'.
Proof. intros Hs Ht. now exists tr. Qed.

Lemma connectSSL_setup_shape (this : BearSSLClient) (host : option string)
    (w : World X) :
  exists tr,
    trace (snd (connectSSL_setup indeterminate this host w)) = trace w ++ tr /\
    setup_trace indeterminate this host tr.
Proof.
  unfold connectSSL_setup, hardware_entropy, bind, mret. cbn [fst snd].
  set (c1 := call (arduino_client_profile _ _) w).
  set (c2 := call (br_ssl_engine_set_buffer _ _) (snd c1)).
  set (cb := call ECCX08_begin (snd c2)).
  assert (T2 : trace (snd c2) = trace w ++ setup_head (fst c1) (fst c2)).
  { subst c2 c1. rewrite !call_trace, <- app_assoc. reflexivity. }
  assert (Tb : trace (snd cb) = trace w ++ setup_head (fst c1) (fst c2)
                                 ++ [(ECCX08_begin, fst cb)]).
  { subst cb. rewrite call_trace, T2, <- app_assoc. reflexivity. }
  destruct (Z.eqb_spec (ret (fst cb)) 0) as [Hb|Hb]; cbn [fst snd].
  { destruct (fill_entropy_bytes indeterminate (snd cb)) as (rs & Hl & Ht & Hr).
    rewrite Hr.
    eapply setup_trace_intro;
      [eapply setup_begin_failed with (rb := fst cb) (rs := rs); assumption|].
    rewrite !call_trace, Ht, Tb. unfold setup_tail.
    repeat rewrite <- app_assoc. reflexivity. }
  set (cl := call ECCX08_locked (snd cb)).
  assert (Tl : trace (snd cl) = trace w ++ setup_head (fst c1) (fst c2)
                 ++ [(ECCX08_begin, fst cb); (ECCX08_locked, fst cl)]).
  { subst cl. rewrite call_trace, Tb. repeat rewrite <- app_assoc. reflexivity. }
  destruct (Z.eqb_spec (ret (fst cl)) 0) as [Hk|Hk]; cbn [fst snd].
  { destruct (fill_entropy_bytes indeterminate (snd cl)) as (rs & Hl & Ht & Hr).
    rewrite Hr.
    eapply setup_trace_intro;
      [eapply setup_not_locked with (rb := fst cb) (rl := fst cl) (rs := rs);
       assumption|].
    rewrite !call_trace, Ht, Tl. unfold setup_tail.
    repeat rewrite <- app_assoc. reflexivity. }
  set (cx := call (ECCX08_random 32) (snd cl)).
  assert (Tx : trace (snd cx) = trace w ++ setup_head (fst c1) (fst c2)
                 ++ [(ECCX08_begin, fst cb); (ECCX08_locked, fst cl);
                     (ECCX08_random 32, fst cx)]).
  { subst cx. rewrite call_trace, Tl. repeat rewrite <- app_assoc. reflexivity. }
  destruct (Z.eqb_spec (ret (fst cx)) 0) as [Hx|Hx]; cbn [negb fst snd].
  { destruct (fill_entropy_bytes (array_store indeterminate 32 (out (fst cx)))
                (snd cx)) as (rs & Hl & Ht & Hr).
    rewrite Hr.
    eapply setup_trace_intro;
      [eapply setup_random_failed
         with (rb := fst cb) (rl := fst cl) (rx := fst cx) (rs := rs);
       assumption|].
    rewrite !call_trace, Ht, Tx. unfold setup_tail.
    repeat rewrite <- app_assoc. reflexivity. }
  set (ce := call br_ssl_engine_set_ecdsa (snd cx)).
  assert (Te : trace (snd ce) = trace w ++ setup_head (fst c1) (fst c2)
                 ++ [(ECCX08_begin, fst cb); (ECCX08_locked, fst cl);
                     (ECCX08_random 32, fst cx);
                     (br_ssl_engine_set_ecdsa, fst ce)]).
  { subst ce. rewrite call_trace, Tx. repeat rewrite <- app_assoc. reflexivity. }
  destruct (client_auth_guard this) eqn:G; cbn [fst snd];
    (eapply setup_trace_intro;
     [eapply setup_hardware
        with (rb := fst cb) (rl := fst cl) (rx := fst cx)
             (rc := fst (call (br_ssl_client_set_single_ec
                                 (_ecCert this) 1 (_ecKey this)
                                 (Z.lor BR_KEYTYPE_KEYX BR_KEYTYPE_SIGN)
                                 BR_KEYTYPE_EC) (snd ce)));
      assumption|]);
    rewrite G, !call_trace, Te; unfold setup_tail;
    repeat rewrite <- app_assoc; reflexivity.
Qed.

Lemma handshake_loop_trace fuel : forall (w : World X),
  exists rs, trace (snd (handshake_loop fuel w)) = trace w ++ polls rs.
Proof.
  induction fuel as [|fuel IH]; intros w.
  - exists []. cbn. now rewrite app_nil_r.
  - cbn [handshake_loop]. cbv zeta.
    set (rw := call br_ssl_engine_current_state w).
    assert (E : trace (snd rw) = trace w ++ polls [fst rw]) by reflexivity.
    destruct (negb _); [|destruct (negb _)]; cbn [snd];
      try (exists [fst rw]; exact E).
    destruct (IH (snd rw)) as (rs & Hrs). exists (fst rw :: rs).
    rewrite Hrs, E, <- app_assoc. reflexivity.
Qed.

Lemma connect_events_shape (this : BearSSLClient) (host : option string)
    (fuel : nat) (w : World X) :
  exists tr rs,
    setup_trace indeterminate this host tr /\
    connect_events indeterminate this host fuel w = tr ++ polls rs.
Proof.
  destruct (connectSSL_setup_shape this host w) as (tr & Ht & Hs).
  destruct (handshake_loop_trace fuel
              (snd (connectSSL_setup indeterminate this host w))) as (rs & Hrs).
  exists tr, rs. split; [assumption|].
  unfold connect_events, connectSSL. apply new_events_app.
  now rewrite Hrs, Ht, <- app_assoc.
Qed.

(** Projections of a trace commute with concatenation and vanish on runs of
    calls of another kind. *)

Lemma injected_app (a b : list (Call * Reply)) :
  injected (a ++ b) = injected a ++ injected b.
Proof.
  induction a as [|[c r] a IH]; [reflexivity|].
  cbn [app injected]. destruct c; rewrite IH; reflexivity.
Qed.

Lemma random_values_app (a b : list (Call * Reply)) :
  random_values (a ++ b) = random_values a ++ random_values b.
Proof.
  induction a as [|[c r] a IH]; [reflexivity|].
  cbn [app random_values]. rewrite IH.
  destruct c as [| | | | | | | |lo hi| | | | | | | | | |]; try reflexivity.
  destruct lo as [|[]|]; try reflexivity.
  destruct (Z.eq_dec hi 255) as [->|Hne]; [reflexivity|].
  destruct hi as [|p|p]; try reflexivity.
  do 8 (destruct p as [p|p|]; try reflexivity); congruence.
Qed.

(** A test that rejects every call of one kind rejects a whole run of them. *)

Lemma existsb_polls (p : Call * Reply -> bool) (rs : list Reply) :
  (forall r, p (br_ssl_engine_current_state, r) = false) ->
  existsb p (polls rs) = false.
Proof.
  intros Hp. induction rs as [|r rs IH]; [reflexivity|].
  cbn [polls map existsb]. rewrite Hp. exact IH.
Qed.

Lemma existsb_randoms (p : Call * Reply -> bool) (rs : list Reply) :
  (forall r, p (random 0 255, r) = false) ->
  existsb p (randoms rs) = false.
Proof.
  intros Hp. induction rs as [|r rs IH]; [reflexivity|].
  cbn [randoms map existsb]. rewrite Hp. exact IH.
Qed.

Create Rewrite HintDb trace_db.

#[local] Hint Rewrite existsb_app orb_false_r app_nil_r : trace_db.
#[local] Hint Rewrite existsb_polls existsb_randoms
  using (intros; reflexivity) : trace_db.

(** Settle the tests [v =? 0] whose outcome is among the hypotheses. *)
Ltac settle_zero_tests :=
  repeat match goal with
         | H : ?v = 0 |- context [?v =? 0] => rewrite H; cbn [Z.eqb negb orb]
         | H : ?v <> 0 |- context [?v =? 0] =>
             rewrite (proj2 (Z.eqb_neq v 0) H); cbn [negb orb]
         end.

Lemma injected_polls rs : injected (polls rs) = [].
Proof. induction rs as [|r rs IH]; [reflexivity | exact IH]. Qed.

Lemma injected_randoms rs : injected (randoms rs) = [].
Proof. induction rs as [|r rs IH]; [reflexivity | exact IH]. Qed.

Lemma random_values_polls rs : random_values (polls rs) = [].
Proof. induction rs as [|r rs IH]; [reflexivity | exact IH]. Qed.

Lemma random_values_randoms rs : random_values (randoms rs) = map ret rs.
Proof.
  induction rs as [|r rs IH]; [reflexivity|].
  cbn [randoms map random_values]. f_equal. exact IH.
Qed.

Lemma read_array_length (a : array) (n : nat) : List.length (read_array a n) = n.
Proof. unfold read_array. now rewrite length_map, length_seq. Qed.

(** The calls of [connectSSL_setup], with the provider's own answers. *)

Lemma setup_trace_of_intro (this : BearSSLClient) (host : option string)
    (pb pl px : Reply) (w w' : World X) (tr : list (Call * Reply)) :
  setup_trace_of indeterminate this host pb pl px tr ->
  trace w' = trace w ++ tr ->
  exists tr', trace w' = trace w ++ tr' /\
              setup_trace_of indeterminate this host pb pl px tr'.
Proof. intros Hs Ht. now exists tr. Qed.

Lemma connectSSL_setup_shape_of (this : BearSSLClient) (host : option string)
    (w : World X) :
  exists tr,
    trace (snd (connectSSL_setup indeterminate this host w)) = trace w ++ tr /\
    setup_trace_of indeterminate this host
      (provider_begin w) (provider_locked w) (provider_random w) tr.
Proof.
  unfold provider_begin, provider_locked, provider_random, before_hardware_test.
  unfold connectSSL_setup, hardware_entropy, bind, mret. cbn [fst snd].
  set (c1 := call (arduino_client_profile _ _) w).
  set (c2 := call (br_ssl_engine_set_buffer _ _) (snd c1)).
  set (cb := call ECCX08_begin (snd c2)).
  set (cl := call ECCX08_locked (snd cb)).
  set (cx := call (ECCX08_random 32) (snd cl)).
  assert (T2 : trace (snd c2) = trace w ++ setup_head (fst c1) (fst c2)).
  { subst c2 c1. rewrite !call_trace, <- app_assoc. reflexivity. }
  assert (Tb : trace (snd cb) = trace w ++ setup_head (fst c1) (fst c2)
                                 ++ [(ECCX08_begin, fst cb)]).
  { subst cb. rewrite call_trace, T2, <- app_assoc. reflexivity. }
  assert (Tl : trace (snd cl) = trace w ++ setup_head (fst c1) (fst c2)
                 ++ [(ECCX08_begin, fst cb); (ECCX08_locked, fst cl)]).
  { subst cl. rewrite call_trace, Tb. repeat rewrite <- app_assoc. reflexivity. }
  assert (Tx : trace (snd cx) = trace w ++ setup_head (fst c1) (fst c2)
                 ++ [(ECCX08_begin, fst cb); (ECCX08_locked, fst cl);
                     (ECCX08_random 32, fst cx)]).
  { subst cx. rewrite call_trace, Tl. repeat rewrite <- app_assoc. reflexivity. }
  destruct (Z.eqb_spec (ret (fst cb)) 0) as [Hb|Hb]; cbn [fst snd].
  { destruct (fill_entropy_bytes indeterminate (snd cb)) as (rs & Hl & Ht & Hr).
    rewrite Hr.
    eapply setup_trace_of_intro;
      [eapply of_begin_failed with (rs := rs); assumption|].
    rewrite !call_trace, Ht, Tb. unfold setup_tail.
    repeat rewrite <- app_assoc. reflexivity. }
  change (call ECCX08_locked (snd cb)) with cl.
  destruct (Z.eqb_spec (ret (fst cl)) 0) as [Hk|Hk]; cbn [fst snd].
  { destruct (fill_entropy_bytes indeterminate (snd cl)) as (rs & Hl & Ht & Hr).
    rewrite Hr.
    eapply setup_trace_of_intro;
      [eapply of_not_locked with (rs := rs); assumption|].
    rewrite !call_trace, Ht, Tl. unfold setup_tail.
    repeat rewrite <- app_assoc. reflexivity. }
  change (call (ECCX08_random 32) (snd cl)) with cx.
  destruct (Z.eqb_spec (ret (fst cx)) 0) as [Hx|Hx]; cbn [negb fst snd].
  { destruct (fill_entropy_bytes (array_store indeterminate 32 (out (fst cx)))
                (snd cx)) as (rs & Hl & Ht & Hr).
    rewrite Hr.
    eapply setup_trace_of_intro;
      [eapply of_random_failed with (rs := rs); assumption|].
    rewrite !call_trace, Ht, Tx. unfold setup_tail.
    repeat rewrite <- app_assoc. reflexivity. }
  set (ce := call br_ssl_engine_set_ecdsa (snd cx)).
  assert (Te : trace (snd ce) = trace w ++ setup_head (fst c1) (fst c2)
                 ++ [(ECCX08_begin, fst cb); (ECCX08_locked, fst cl);
                     (ECCX08_random 32, fst cx);
                     (br_ssl_engine_set_ecdsa, fst ce)]).
  { subst ce. rewrite call_trace, Tx. repeat rewrite <- app_assoc. reflexivity. }
  destruct (client_auth_guard this) eqn:G; cbn [fst snd];
    (eapply setup_trace_of_intro;
     [eapply of_hardware
        with (rc := fst (call (br_ssl_client_set_single_ec
                                 (_ecCert this) 1 (_ecKey this)
                                 (Z.lor BR_KEYTYPE_KEYX BR_KEYTYPE_SIGN)
                                 BR_KEYTYPE_EC) (snd ce)));
      assumption|]);
    rewrite G, !call_trace, Te; unfold setup_tail;
    repeat rewrite <- app_assoc; reflexivity.
Qed.

Lemma connect_events_shape_of (this : BearSSLClient) (host : option string)
    (fuel : nat) (w : World X) :
  exists tr rs,
    setup_trace_of indeterminate this host
      (provider_begin w) (provider_locked w) (provider_random w) tr /\
    connect_events indeterminate this host fuel w = tr ++ polls rs.
Proof.
  destruct (connectSSL_setup_shape_of this host w) as (tr & Ht & Hs).
  destruct (handshake_loop_trace fuel
              (snd (connectSSL_setup indeterminate this host w))) as (rs & Hrs).
  exists tr, rs. split; [assumption|].
  unfold connect_events, connectSSL. apply new_events_app.
  now rewrite Hrs, Ht, <- app_assoc.
Qed.

(** What the trace shows of the hardware test is what the provider
    answered: the hardware path is taken exactly when the provider begins, is
    locked and fills the buffer, and a failed condition is on record exactly
    when one of the three fails. *)
Lemma hardware_path_by_provider (this : BearSSLClient) (host : option string)
    (fuel : nat) (w : World X) :
  let tr := connect_events indeterminate this host fuel w in
  (hardware_rng_succeeded tr = true <-> provider_ready w) /\
  (hardware_rng_failed tr = true <-> provider_fails w).
Proof.
  intros tr. subst tr.
  destruct (connect_events_shape_of this host fuel w) as (tr & rs & Hs & E).
  rewrite E. clear E.
  unfold hardware_rng_failed, hardware_rng_succeeded, provider_ready,
    provider_fails.
  destruct Hs; [| | |destruct (client_auth_guard this)];
    autorewrite with trace_db;
    unfold setup_head, setup_tail;
    cbn [existsb app orb fst]; settle_zero_tests;
    intuition (try congruence).
Qed.

(** C3: every [connectSSL] injects entropy exactly once, and what it injects
    is 32 bytes long.  When the provider fails to begin, is not locked or
    fails to fill the buffer, the 32 bytes are the values [random(0, 255)]
    returned, in order, each cut to a byte; when it does all three, they are
    the buffer as the provider left it and the software generator is not
    used at all. *)
Theorem connectSSL_injects_entropy_once (this : BearSSLClient)
    (host : option string) (fuel : nat) (w : World X) :
  let tr := connect_events indeterminate this host fuel w in
  exists e,
    injected tr = [e] /\
    List.length e = 32%nat /\
    (provider_fails w ->
       hardware_rng_failed tr = true /\
       e = map to_uint8 (random_values tr) /\
       List.length (random_values tr) = 32%nat) /\
    (provider_ready w ->
       hardware_rng_succeeded tr = true /\
       random_values tr = [] /\
       e = read_array
             (array_store indeterminate 32 (out (provider_random w))) 32) /\
    (hardware_rng_failed tr = true ->
       e = map to_uint8 (random_values tr) /\
       List.length (random_values tr) = 32%nat) /\
    (hardware_rng_failed tr = false ->
       hardware_rng_succeeded tr = true /\ random_values tr = []).
Proof.
  intros tr. subst tr.
  destruct (connect_events_shape_of this host fuel w) as (tr & rs & Hs & E).
  rewrite E. clear E.
  unfold hardware_rng_failed, hardware_rng_succeeded, provider_ready,
    provider_fails.
  destruct Hs; [| | |destruct (client_auth_guard this)]; eexists;
    autorewrite with trace_db;
    rewrite ?injected_app, ?random_values_app, ?injected_polls,
      ?injected_randoms, ?random_values_polls, ?random_values_randoms;
    unfold setup_head, setup_tail;
    cbn [injected random_values existsb app orb]; settle_zero_tests;
    rewrite ?app_nil_r;
    (split; [reflexivity|]);
    (split; [rewrite ?length_map, ?read_array_length; try assumption;
             reflexivity|]).
  1-3: split; [intros _; split; [reflexivity|];
               split; [now rewrite map_map | now rewrite length_map]|];
       split; [intros (Hb & Hl & Hx); contradiction|];
       split; [intros _; split; [now rewrite map_map | now rewrite length_map]|];
       intros Hf; discriminate.
  all: split; [intros [Hb|[Hl|Hx]]; contradiction|];
       split; [intros _; repeat split; reflexivity|];
       split; [intros Hf; discriminate|];
       intros _; split; reflexivity.
Qed.

Lemma client_auth_guard_true (this : BearSSLClient) :
  client_auth_guard this = true <->
  xlen (_ecKey this) <> 0 /\ data_len (_ecCert this) <> 0.
Proof.
  unfold client_auth_guard.
  rewrite andb_true_iff, !negb_true_iff, !Z.eqb_neq. tauto.
Qed.

(** The certificate is registered exactly when the hardware path was taken
    and the guard let it through. *)
Lemma registers_client_cert_spec (this : BearSSLClient) (host : option string)
    (fuel : nat) (w : World X) :
  let tr := connect_events indeterminate this host fuel w in
  registers_client_cert tr = hardware_rng_succeeded tr && client_auth_guard this.
Proof.
  intros tr. subst tr.
  destruct (connect_events_shape this host fuel w) as (tr & rs & Hs & E).
  rewrite E. clear E.
  unfold registers_client_cert, hardware_rng_succeeded.
  destruct Hs; [| | |destruct (client_auth_guard this)];
    autorewrite with trace_db;
    unfold setup_head, setup_tail;
    cbn [existsb app orb fst is_set_single_ec]; settle_zero_tests;
    reflexivity.
Qed.

(** Whatever path is taken, the handshake is started: the engine is reset
    with the host name and the adapter is flushed. *)
Lemma connect_events_start_handshake (this : BearSSLClient)
    (host : option string) (fuel : nat) (w : World X) :
  exists rr rf,
    In (br_ssl_client_reset host 0, rr)
       (connect_events indeterminate this host fuel w) /\
    In (br_sslio_flush, rf) (connect_events indeterminate this host fuel w).
Proof.
  destruct (connect_events_shape this host fuel w) as (tr & rs & Hs & E).
  rewrite E. clear E.
  destruct Hs; exists rr, rf; split;
    (apply in_or_app; left; do 3 (apply in_or_app; right);
     unfold setup_tail; cbn [In]; auto).
Qed.

(** C4: [connectSSL] registers the client certificate exactly when the
    hardware path succeeded and both a key length (set by [setEccSlot]) and a
    certificate length are non-zero.  A session on which [setEccSlot] was
    never called registers nothing, and neither does one configured with a
    certificate of length 0; the handshake is started all the same. *)
Theorem client_cert_registered_only_when_configured (this : BearSSLClient)
    (host : option string) (fuel : nat) (w : World X) :
  (registers_client_cert (connect_events indeterminate this host fuel w) = true
   <-> hardware_rng_succeeded (connect_events indeterminate this host fuel w)
         = true /\
       xlen (_ecKey this) <> 0 /\ data_len (_ecCert this) <> 0) /\
  registers_client_cert
    (connect_events indeterminate BearSSLClient_new host fuel w) = false /\
  (forall slot cert,
     let s := setEccSlot slot cert 0 this in
     registers_client_cert (connect_events indeterminate s host fuel w) = false /\
     exists rr rf,
       In (br_ssl_client_reset host 0, rr)
          (connect_events indeterminate s host fuel w) /\
       In (br_sslio_flush, rf) (connect_events indeterminate s host fuel w)).
Proof.
  split; [|split].
  - rewrite registers_client_cert_spec, andb_true_iff, client_auth_guard_true.
    reflexivity.
  - rewrite registers_client_cert_spec. apply andb_false_r.
  - intros slot cert s. split.
    + rewrite registers_client_cert_spec. apply andb_false_r.
    + apply connect_events_start_handshake.
Qed.

Lemma to_size_t_nonzero (z : Z) :
  INT_MIN <= z <= INT_MAX -> z <> 0 -> to_size_t z <> 0.
Proof.
  unfold INT_MIN, INT_MAX, to_size_t, SIZE_MOD. intros Hr Hz Hm.
  pose proof (Z.div_mod z (2 ^ 32) ltac:(lia)) as Hd.
  rewrite Hm in Hd. lia.
Qed.

(** C10, as the code has it: whatever the slot, [setEccSlot] stores curve 23,
    the slot number as the key pointer (slot 0 gives the null pointer) and
    key length 32, so with a certificate length other than 0 the guard of the
    client-authentication block holds; the certificate is then registered at
    the next [connectSSL] exactly when that call takes the hardware path,
    that is exactly when the provider begins, is locked and fills the
    buffer. *)
Theorem setEccSlot_enables_client_auth_for_any_slot (slot cert certLength : Z)
    (this : BearSSLClient) (host : option string) (fuel : nat) (w : World X) :
  INT_MIN <= certLength <= INT_MAX ->
  certLength <> 0 ->
  let s := setEccSlot slot cert certLength this in
  _ecKey s = mk_ec_key 23 (to_size_t slot) 32 /\
  x (_ecKey (setEccSlot 0 cert certLength this)) = NULL /\
  client_auth_guard s = true /\
  registers_client_cert (connect_events indeterminate s host fuel w)
  = hardware_rng_succeeded (connect_events indeterminate s host fuel w) /\
  (registers_client_cert (connect_events indeterminate s host fuel w) = true
   <-> ret (provider_begin w) <> 0 /\
       ret (provider_locked w) <> 0 /\
       ret (provider_random w) <> 0).
Proof.
  intros Hr Hz s.
  assert (G : client_auth_guard s = true).
  { apply client_auth_guard_true. cbn. split; [discriminate|].
    now apply to_size_t_nonzero. }
  assert (R : registers_client_cert (connect_events indeterminate s host fuel w)
              = hardware_rng_succeeded
                  (connect_events indeterminate s host fuel w)).
  { rewrite registers_client_cert_spec, G. apply andb_true_r. }
  split; [reflexivity|]. split; [reflexivity|]. split; [exact G|].
  split; [exact R|]. rewrite R.
  exact (proj1 (hardware_path_by_provider s host fuel w)).
Qed.

End Properties.

(** ** Concrete runs *)

Section Runs.

Import Mock.

(** C1: a payload of 4 bytes at addresses 0..3 (the record buffer holds 16)
    and an adapter that takes 3 bytes per call.  The second call is
    [br_sslio_write(buf + 3, 4)], not [br_sslio_write(buf + 3, 1)]: the
    adapter is offered addresses 3..6 and, taking three of them, receives the
    bytes at 4 and 5, which lie beyond the payload.  [write] then returns 6
    and skips the flush, although no adapter call reported an error. *)
Theorem write_overreads_after_short_write (fuel : nat) :
  let size := 4 in
  let run := write (3 + fuel) 0 size (start short_write) in
  size <= sizeof_iobuf /\
  fst run = Some 6 /\
  trace (snd run) = [(br_sslio_write 0 4, plain 3); (br_sslio_write 3 4, plain 3)] /\
  accepted_ranges (trace (snd run)) = [(0, 3); (3, 3)] /\
  accepted_bytes memory (trace (snd run)) = [0; 1; 2; 3; 4; 5] /\
  accepted_bytes memory (trace (snd run)) <> map memory [0; 1; 2; 3].
Proof.
  cbv zeta. change (3 + fuel)%nat with (S (S (S fuel))).
  repeat split; try reflexivity; try discriminate.
Qed.

(** C10, as stated, fails: slot 0 and a 5-byte certificate are configured
    and the guard holds, yet the next connect, which completes the handshake,
    registers no client certificate, because no secure element answered and
    the block that holds the guard was not entered. *)
Lemma setEccSlot_without_secure_element :
  let s := setEccSlot 0 4096 5 BearSSLClient_new in
  let w := start no_secure_element in
  let run := connect_host zeros s "broker" 8883 5 w in
  client_auth_guard s = true /\
  fst run = Some 1 /\
  registers_client_cert (new_events w (snd run)) = false.
Proof. repeat split; reflexivity. Qed.

(** The handshake of [slow_handshake] shows neither bit twice, then
    [BR_SSL_SENDAPP]: two queries are not enough, three are. *)
Lemma connectSSL_slow_handshake :
  fst (connectSSL zeros BearSSLClient_new None 2 (start slow_handshake)) = None /\
  fst (connectSSL zeros BearSSLClient_new None 3 (start slow_handshake)) = Some 1.
Proof.
  destruct (connectSSL_returns_on_sendapp_or_closed zeros BearSSLClient_new
              None (start slow_handshake) 2) as (Hwait & Hdone & _).
  { intros i Hi. destruct i as [|[|i]]; [| |lia];
      vm_compute; split; intros H; apply H; reflexivity. }
  split.
  - apply Hwait. lia.
  - rewrite Hdone; [reflexivity | vm_compute; discriminate | lia].
Defined.

(** A secure element that is not locked: the 32 bytes injected are the
    software generator's, although the element would have filled the
    buffer. *)
Lemma connectSSL_software_entropy :
  let w := start unlocked_secure_element in
  let tr := connect_events zeros BearSSLClient_new None 5 w in
  ret (provider_begin w) = 1 /\ ret (provider_locked w) = 0 /\
  ret (provider_random w) = 1 /\
  injected tr = [repeat 7 32] /\ hardware_rng_failed tr = true.
Proof.
  cbv zeta.
  destruct (connectSSL_injects_entropy_once zeros BearSSLClient_new None 5
              (start unlocked_secure_element)) as (e & Hi & _ & Hfail & _).
  destruct Hfail as (Hf & He & _).
  { right. left. reflexivity. }
  split; [reflexivity|]. split; [reflexivity|]. split; [reflexivity|].
  split; [rewrite Hi, He; reflexivity | exact Hf].
Defined.

(** A certificate of length 0 is not registered even on the hardware path. *)
Lemma connectSSL_empty_certificate :
  registers_client_cert
    (connect_events zeros (setEccSlot 3 4096 0 BearSSLClient_new) None 5
       (start healthy)) = false.
Proof.
  destruct (client_cert_registered_only_when_configured zeros
              BearSSLClient_new None 5 (start healthy)) as (_ & _ & Hzero).
  exact (proj1 (Hzero 3 4096)).
Defined.

(** The flush fails after all 4 bytes were taken: [write] reports 0. *)
Lemma write_flush_fails :
  fst (write 5 0 4 (start flush_fails)) = Some 0.
Proof.
  destruct (write_returns_zero_when_flush_fails 1 5 4 0 (start flush_fails) 4
              (snd (call (br_sslio_write 0 4) (start flush_fails))))
    as [Hw _].
  - reflexivity.
  - vm_compute. reflexivity.
  - lia.
  - rewrite Hw. reflexivity.
Defined.

(** The adapter fails after 3 of 8 bytes: [write] reports 3 and never
    flushes. *)
Lemma write_error_after_three :
  let run := write 5 0 8 (start error_after_three) in
  fst run = Some 3 /\
  map fst (trace (snd run)) = [br_sslio_write 0 8; br_sslio_write 3 8].
Proof.
  cbv zeta.
  destruct (write_stops_at_adapter_error 1 5 8 0 (start error_after_three) 3 3
              (snd (call (br_sslio_write 0 8) (start error_after_three))))
    as (Hw & Ht & _).
  - reflexivity.
  - lia.
  - vm_compute. reflexivity.
  - lia.
  - rewrite Hw. split; [reflexivity|]. cbn [snd]. rewrite Ht. reflexivity.
Defined.

(** The callbacks on an unplugged, an idle and a busy stream. *)
Lemma transport_callbacks_runs :
  fst (clientRead 0 16 (start unplugged)) = -1 /\
  fst (clientWrite 0 16 (start unplugged)) = -1 /\
  fst (clientRead 0 16 (start idle)) = 0 /\
  fst (clientWrite 0 16 (start idle)) = -1 /\
  fst (clientRead 0 16 (start busy)) = 5 /\
  fst (clientWrite 0 16 (start busy)) = 5.
Proof.
  destruct (transport_callbacks_results 0 16 (start unplugged)) as (Hu & _).
  destruct (transport_callbacks_results 0 16 (start idle))
    as (_ & Hir & _ & Hiw & _).
  destruct (transport_callbacks_results 0 16 (start busy))
    as (_ & _ & Hbr & _ & Hbw).
  destruct (Hu eq_refl) as [Hur Huw].
  rewrite Hur, Huw, Hir, Hiw, Hbr, Hbw;
    repeat split; try reflexivity; try discriminate;
    vm_compute; discriminate.
Defined.

(** [connected] on an unplugged stream, with the engine closed, and on a
    live session. *)
Lemma connected_runs :
  fst (connected (start unplugged)) = 0 /\
  fst (connected (start engine_closed)) = 0 /\
  fst (connected (start healthy)) = 1.
Proof.
  destruct (connected_false_iff_closed (start unplugged)) as (Hu & _).
  destruct (connected_false_iff_closed (start engine_closed)) as (_ & Hc & _).
  destruct (connected_false_iff_closed (start healthy)) as (_ & _ & Hh & _).
  rewrite Hu, Hc, Hh; repeat split; try reflexivity; discriminate.
Defined.

(** [connect] on an unplugged stream. *)
Lemma connect_unplugged :
  connect_ip zeros BearSSLClient_new 167772161 8883 0 (start unplugged)
  = (Some 0, mk_world unplugged [(Client_connect_ip 167772161 8883, plain 0)]) /\
  fst (connect_host zeros BearSSLClient_new "broker" 8883 0 (start unplugged))
  = Some 0.
Proof.
  destruct (connect_fails_before_engine zeros BearSSLClient_new 167772161
              "broker" 8883 0 (start unplugged)) as (Hi & Hh).
  destruct (Hi eq_refl) as (Ei & _). destruct (Hh eq_refl) as (Eh & _).
  rewrite Ei, Eh. split; reflexivity.
Defined.

(** Slot 0 and a 5-byte certificate: registered on a working secure
    element, not registered on one that is not locked. *)
Lemma setEccSlot_slot_zero_registers :
  registers_client_cert
    (connect_events zeros (setEccSlot 0 4096 5 BearSSLClient_new) None 5
       (start healthy)) = true /\
  registers_client_cert
    (connect_events zeros (setEccSlot 0 4096 5 BearSSLClient_new) None 5
       (start unlocked_secure_element)) <> true.
Proof.
  destruct (setEccSlot_enables_client_auth_for_any_slot zeros 0 4096 5
              BearSSLClient_new None 5 (start healthy))
    as (_ & _ & _ & _ & Hready);
    [vm_compute; split; discriminate | discriminate |].
  destruct (setEccSlot_enables_client_auth_for_any_slot zeros 0 4096 5
              BearSSLClient_new None 5 (start unlocked_secure_element))
    as (_ & _ & _ & _ & Hunlocked);
    [vm_compute; split; discriminate | discriminate |].
  split.
  - apply Hready. repeat split; vm_compute; discriminate.
  - intros Hreg. apply Hunlocked in Hreg. destruct Hreg as (_ & Hl & _).
    apply Hl. reflexivity.
Defined.

End Runs.

(** ** Further properties of write, connect and connectSSL *)

Section MoreProperties.

Context {X : Type} `{Ext : Externals X} `{Hdr : Headers}.
Variable indeterminate : array.

(** *** write *)

(** X1: an empty write offers nothing to the adapter; it flushes once and
    returns 0 whether the flush succeeds or not. *)
Theorem write_empty_payload (fuel : nat) (buf : Z) (w : World X) :
  write (S fuel) buf 0 w = (Some 0, snd (call br_sslio_flush w)) /\
  new_events w (snd (write (S fuel) buf 0 w))
  = [(br_sslio_flush, fst (call br_sslio_flush w))].
Proof.
  assert (E : write (S fuel) buf 0 w = (Some 0, snd (call br_sslio_flush w))).
  { unfold write. cbn [write_loop]. cbn [Z.ltb Z.compare Z.eqb]. cbv zeta.
    destruct (ret (fst (call br_sslio_flush w)) <? 0); reflexivity. }
  split; [exact E|]. rewrite E. cbn [snd]. apply new_events_app, call_trace.
Qed.

Lemma write_loop_terminates (size : Z) :
  adapter_contract size -> size <= INT_MAX ->
  forall n buf written w,
    0 <= written ->
    (Z.to_nat (size - written) <= n)%nat ->
    exists b v w',
      write_loop (S n) size buf written w = (Some (b, v), w') /\
      written <= v < Z.max (written + 1) (2 * size).
Proof.
  intros Hc Hs. unfold INT_MAX in Hs.
  induction n as [|n IH]; intros buf written w Hw Hn.
  - cbn [write_loop].
    destruct (Z.ltb_spec written size) as [Hlt|Hge]; [lia|].
    exists buf, written, w. split; [reflexivity|lia].
  - cbn [write_loop].
    destruct (Z.ltb_spec written size) as [Hlt|Hge].
    2: { exists buf, written, w. split; [reflexivity|lia]. }
    cbv zeta. set (rw := call (br_sslio_write buf size) w).
    pose proof (Hc (ext w) buf) as Hr. cbv zeta in Hr.
    change (ret (fst (respond (ext w) (br_sslio_write buf size))))
      with (ret (fst rw)) in Hr.
    destruct (Z.ltb_spec (ret (fst rw)) 0) as [Hneg|Hpos].
    { exists buf, written, (snd rw). split; [reflexivity|lia]. }
    assert (Ew : to_size_t (written + ret (fst rw)) = written + ret (fst rw)).
    { unfold to_size_t, SIZE_MOD. apply Z.mod_small. lia. }
    rewrite Ew.
    destruct (IH (buf + ret (fst rw)) (written + ret (fst rw)) (snd rw))
      as (b & v & w' & E & Hv); [lia|lia|].
    exists b, v, w'. split; [exact E|]. lia.
Qed.

(** X2: under the adapter's contract and for a size that fits an [int],
    [write] returns after at most [size] rounds of its loop, and what it
    returns is less than twice the size asked for. *)
Theorem write_terminates_under_contract (size buf : Z) (w : World X) :
  adapter_contract size ->
  0 < size <= INT_MAX ->
  exists v, fst (write (S (Z.to_nat size)) buf size w) = Some v /\
            0 <= v < 2 * size.
Proof.
  intros Hc Hs.
  destruct (write_loop_terminates size Hc (proj2 Hs) (Z.to_nat size) buf 0 w)
    as (b & v & w' & E & Hv); [lia|lia|].
  unfold write. rewrite E.
  destruct (v =? size).
  - cbv zeta. destruct (ret (fst (call br_sslio_flush w')) <? 0).
    + exists 0. split; [reflexivity|lia].
    + exists v. split; [reflexivity|lia].
  - exists v. split; [reflexivity|lia].
Qed.

Lemma write_loop_spins (size : Z) :
  (forall (x : X) (src : Z),
     ret (fst (respond x (br_sslio_write src size))) = 0) ->
  0 < size ->
  forall fuel buf w, fst (write_loop fuel size buf 0 w) = None.
Proof.
  intros Hz Hs. induction fuel as [|fuel IH]; intros buf w; [reflexivity|].
  cbn [write_loop]. cbv zeta.
  replace (0 <? size) with true by (symmetry; apply Z.ltb_lt; lia).
  change (ret (fst (call (br_sslio_write buf size) w)))
    with (ret (fst (respond (ext w) (br_sslio_write buf size)))).
  rewrite Hz. cbn [Z.ltb Z.compare Z.add]. apply IH.
Qed.

(** X3: [write] has no guard against an adapter that reports 0 bytes without
    an error: as long as every [br_sslio_write] returns 0, a non-empty write
    does not return. *)
Theorem write_spins_without_progress (size buf : Z) (w : World X) (fuel : nat) :
  (forall (x : X) (src : Z),
     ret (fst (respond x (br_sslio_write src size))) = 0) ->
  0 < size ->
  fst (write fuel buf size w) = None.
Proof.
  intros Hz Hs. unfold write.
  pose proof (write_loop_spins size Hz Hs fuel buf w) as E.
  destruct (write_loop fuel size buf 0 w) as [[[b v]|] w']; cbn in E;
    [discriminate|reflexivity].
Qed.

(** X4: a one-byte write cannot run past its byte: when the adapter keeps to
    its contract, [write(b)] makes one [br_sslio_write] call, hands over at
    most the byte at [b_addr] and returns 0 or 1. *)
Theorem write_byte_zero_or_one (fuel : nat) (b_addr : Z) (w : World X) :
  let r := ret (fst (call (br_sslio_write b_addr 1) w)) in
  let run := write_byte (2 + fuel) b_addr w in
  r < 0 \/ r = 1 ->
  (fst run = Some 0 \/ fst run = Some 1) /\
  accepted_ranges (new_events w (snd run))
  = (if r <? 0 then [] else [(b_addr, 1)]).
Proof.
  intros r run Hr. subst run. unfold write_byte, write.
  change (2 + fuel)%nat with (S (S fuel)). cbn [write_loop]. cbv zeta.
  cbn [Z.ltb Z.compare]. fold r.
  set (rw := call (br_sslio_write b_addr 1) w).
  assert (T1 : trace (snd rw) = trace w ++ [(br_sslio_write b_addr 1, fst rw)])
    by apply call_trace.
  destruct Hr as [Hneg|Hone].
  - replace (r <? 0) with true by (symmetry; apply Z.ltb_lt; lia).
    cbn [Z.eqb fst snd]. split; [now left|].
    rewrite (new_events_app _ _ _ T1). cbn [accepted_ranges].
    change (ret (fst rw)) with r.
    replace (r <? 0) with true by (symmetry; apply Z.ltb_lt; lia).
    reflexivity.
  - rewrite Hone. change (1 <? 0) with false. cbn [Z.add].
    change (to_size_t 1) with 1. change (1 <? 1) with false.
    change (1 =? 1) with true. cbv iota beta.
    set (fw := call br_sslio_flush (snd rw)).
    assert (T2 : trace (snd fw) = trace w ++
              [(br_sslio_write b_addr 1, fst rw); (br_sslio_flush, fst fw)]).
    { subst fw. rewrite call_trace, T1, <- app_assoc. reflexivity. }
    assert (A : accepted_ranges (new_events w (snd fw)) = [(b_addr, 1)]).
    { rewrite (new_events_app _ _ _ T2). cbn [accepted_ranges].
      change (ret (fst rw)) with r. rewrite Hone. reflexivity. }
    destruct (ret (fst fw) <? 0); cbn [fst snd]; (split; [auto|exact A]).
Qed.

(** X5: when the first call takes [r1] bytes, fewer than asked, and the
    second call, offered [size] bytes again, takes more than the
    [size - r1] that were left, [write] returns [r1 + r2], which exceeds
    [size]; it does not flush, and the second range handed to the adapter
    ends beyond the payload. *)
Theorem write_overshoots_after_short_write (fuel : nat) (buf size : Z)
    (w : World X) :
  let rw1 := call (br_sslio_write buf size) w in
  let r1 := ret (fst rw1) in
  let rw2 := call (br_sslio_write (buf + r1) size) (snd rw1) in
  let r2 := ret (fst rw2) in
  0 < r1 < size ->
  size - r1 < r2 <= size ->
  size <= INT_MAX ->
  write (3 + fuel) buf size w = (Some (r1 + r2), snd rw2) /\
  new_events w (snd rw2)
  = [(br_sslio_write buf size, fst rw1);
     (br_sslio_write (buf + r1) size, fst rw2)] /\
  accepted_ranges (new_events w (snd rw2)) = [(buf, r1); (buf + r1, r2)] /\
  buf + size < (buf + r1) + r2.
Proof.
  intros rw1 r1 rw2 r2 H1 H2 Hs. unfold INT_MAX in Hs.
  assert (Ev : new_events w (snd rw2)
               = [(br_sslio_write buf size, fst rw1);
                  (br_sslio_write (buf + r1) size, fst rw2)]).
  { apply new_events_app. subst rw2 rw1.
    rewrite !call_trace, <- app_assoc. reflexivity. }
  split; [|split; [exact Ev|split; [|lia]]].
  - unfold write. change (3 + fuel)%nat with (S (S (S fuel))).
    rewrite write_second_call_after_short_write
      by (fold rw1 r1; unfold SIZE_MOD; lia).
    fold rw1 r1 rw2 r2.
    replace (r2 <? 0) with false by (symmetry; apply Z.ltb_ge; lia).
    replace (to_size_t (r1 + r2)) with (r1 + r2)
      by (unfold to_size_t, SIZE_MOD; rewrite Z.mod_small; lia).
    cbn [write_loop].
    replace (r1 + r2 <? size) with false by (symmetry; apply Z.ltb_ge; lia).
    replace (r1 + r2 =? size) with false by (symmetry; apply Z.eqb_neq; lia).
    reflexivity.
  - rewrite Ev. cbn [accepted_ranges]. fold r1 r2.
    replace (r1 <? 0) with false by (symmetry; apply Z.ltb_ge; lia).
    replace (r2 <? 0) with false by (symmetry; apply Z.ltb_ge; lia).
    reflexivity.
Qed.

(** *** connect and connectSSL *)

Lemma connectSSL_trace (this : BearSSLClient) (host : option string)
    (fuel : nat) (w : World X) :
  trace (snd (connectSSL indeterminate this host fuel w))
  = trace w ++ connect_events indeterminate this host fuel w.
Proof.
  destruct (connectSSL_setup_shape indeterminate this host w) as (tr & Ht & _).
  destruct (handshake_loop_trace fuel
              (snd (connectSSL_setup indeterminate this host w))) as (rs & Hrs).
  assert (E : trace (snd (connectSSL indeterminate this host fuel w))
              = trace w ++ (tr ++ polls rs)).
  { unfold connectSSL. now rewrite Hrs, Ht, <- app_assoc. }
  unfold connect_events. now rewrite (new_events_app _ _ _ E).
Qed.

Lemma filter_polls (p : Call * Reply -> bool) (rs : list Reply) :
  (forall r, p (br_ssl_engine_current_state, r) = false) ->
  filter p (polls rs) = [].
Proof.
  intros Hp. induction rs as [|r rs IH]; [reflexivity|].
  cbn [polls map filter]. rewrite Hp. exact IH.
Qed.

Lemma filter_randoms (p : Call * Reply -> bool) (rs : list Reply) :
  (forall r, p (random 0 255, r) = false) ->
  filter p (randoms rs) = [].
Proof.
  intros Hp. induction rs as [|r rs IH]; [reflexivity|].
  cbn [randoms map filter]. rewrite Hp. exact IH.
Qed.

Lemma resets_app (a b : list (Call * Reply)) :
  resets (a ++ b) = resets a ++ resets b.
Proof.
  induction a as [|[c r] a IH]; [reflexivity|].
  cbn [app resets]. destruct c; rewrite IH; reflexivity.
Qed.

Lemma resets_polls rs : resets (polls rs) = [].
Proof. induction rs as [|r rs IH]; [reflexivity | exact IH]. Qed.

Lemma resets_randoms rs : resets (randoms rs) = [].
Proof. induction rs as [|r rs IH]; [reflexivity | exact IH]. Qed.

Lemma connect_events_resets (this : BearSSLClient) (host : option string)
    (fuel : nat) (w : World X) :
  resets (connect_events indeterminate this host fuel w) = [(host, 0)].
Proof.
  destruct (connect_events_shape indeterminate this host fuel w)
    as (tr & rs & Hs & E).
  rewrite E. clear E.
  destruct Hs; [| | |destruct (client_auth_guard this)];
    rewrite ?resets_app, ?resets_polls, ?resets_randoms;
    reflexivity.
Qed.

(** X6: a connect that gets past the stream's connect resets the engine
    exactly once, never with a session to resume; by name the server name is
    the host given, by address there is none. *)
Theorem connect_resets_with_server_name (this : BearSSLClient) (ip : Z)
    (host : string) (port : Z) (fuel : nat) (w : World X) :
  (ret (fst (call (Client_connect_ip ip port) w)) <> 0 ->
   resets (new_events w (snd (connect_ip indeterminate this ip port fuel w)))
   = [(None, 0)]) /\
  (ret (fst (call (Client_connect_host host port) w)) <> 0 ->
   resets (new_events w (snd (connect_host indeterminate this host port fuel w)))
   = [(Some host, 0)]).
Proof.
  split; intros Hr; apply Z.eqb_neq in Hr.
  - unfold connect_ip. rewrite Hr.
    set (rw := call (Client_connect_ip ip port) w).
    erewrite new_events_app.
    2: { rewrite connectSSL_trace. subst rw. rewrite call_trace, <- app_assoc.
         reflexivity. }
    rewrite resets_app, connect_events_resets. reflexivity.
  - unfold connect_host. rewrite Hr.
    set (rw := call (Client_connect_host host port) w).
    erewrite new_events_app.
    2: { rewrite connectSSL_trace. subst rw. rewrite call_trace, <- app_assoc.
         reflexivity. }
    rewrite resets_app, connect_events_resets. reflexivity.
Qed.

(** Settle the tests [v =? 0] whose outcome is among the hypotheses. *)
Ltac zero_tests :=
  repeat match goal with
         | H : ?v = 0 |- context [?v =? 0] => rewrite H; cbn [Z.eqb negb orb]
         | H : ?v <> 0 |- context [?v =? 0] =>
             rewrite (proj2 (Z.eqb_neq v 0) H); cbn [negb orb]
         end.

(** Push a projection through the pieces of a set-up trace. *)
Ltac through_setup :=
  unfold results, outs;
  rewrite ?filter_app, ?map_app, ?existsb_app;
  rewrite ?filter_polls, ?filter_randoms, ?existsb_polls, ?existsb_randoms
    by (intros; reflexivity);
  unfold setup_head, setup_tail;
  cbn [filter map existsb app fst snd orb].

(** X7: the three hardware conditions are evaluated left to right and no
    further than needed: [ECCX08.begin] is called once, [ECCX08.locked] once
    if [begin] succeeded and not at all otherwise, [ECCX08.random] once if
    both succeeded and not at all otherwise. *)
Theorem hardware_test_short_circuits (this : BearSSLClient)
    (host : option string) (fuel : nat) (w : World X) :
  let tr := connect_events indeterminate this host fuel w in
  exists rb,
    results is_ECCX08_begin tr = [rb] /\
    (rb = 0 ->
       results is_ECCX08_locked tr = [] /\ results is_ECCX08_random tr = []) /\
    (rb <> 0 ->
       exists rl,
         results is_ECCX08_locked tr = [rl] /\
         (rl = 0 -> results is_ECCX08_random tr = []) /\
         (rl <> 0 -> exists rx, results is_ECCX08_random tr = [rx])).
Proof.
  intros tr. subst tr.
  destruct (connect_events_shape indeterminate this host fuel w)
    as (tr & rs & Hs & E).
  rewrite E. clear E.
  destruct Hs; [| | |destruct (client_auth_guard this)];
    exists (ret rb); through_setup; (split; [reflexivity|]).
  - split; [intros _; split; reflexivity | intros Hne; contradiction].
  - split; [intros Hz; contradiction|]. intros _. exists (ret rl).
    split; [reflexivity|].
    split; [intros _; reflexivity | intros Hne; contradiction].
  - split; [intros Hz; contradiction|]. intros _. exists (ret rl).
    split; [reflexivity|].
    split; [intros Hz; contradiction|]. intros _. exists (ret rx). reflexivity.
  - split; [intros Hz; contradiction|]. intros _. exists (ret rl).
    split; [reflexivity|].
    split; [intros Hz; contradiction|]. intros _. exists (ret rx). reflexivity.
  - split; [intros Hz; contradiction|]. intros _. exists (ret rl).
    split; [reflexivity|].
    split; [intros Hz; contradiction|]. intros _. exists (ret rx). reflexivity.
Qed.

(** X8: the hardware signature-verification hook is installed exactly when
    the hardware path is taken, whether or not a client certificate is
    configured. *)
Theorem set_ecdsa_iff_hardware_path (this : BearSSLClient)
    (host : option string) (fuel : nat) (w : World X) :
  let tr := connect_events indeterminate this host fuel w in
  existsb (fun e => is_set_ecdsa (fst e)) tr = hardware_rng_succeeded tr /\
  List.length (filter (fun e => is_set_ecdsa (fst e)) tr)
  = (if hardware_rng_succeeded tr then 1 else 0)%nat.
Proof.
  intros tr. subst tr.
  destruct (connect_events_shape indeterminate this host fuel w)
    as (tr & rs & Hs & E).
  rewrite E. clear E. unfold hardware_rng_succeeded.
  destruct Hs; [| | |destruct (client_auth_guard this)];
    through_setup; zero_tests; split; reflexivity.
Qed.

Lemma to_uint8_below_255 (v : Z) : below_255 v -> below_255 (to_uint8 v).
Proof.
  unfold below_255, to_uint8. intros Hv. rewrite Z.mod_small; lia.
Qed.

(** X9: when [random(0, 255)] keeps to its exclusive upper bound, the
    software fallback never injects the byte 255: every byte it hands to the
    engine lies in 0..254. *)
Theorem software_entropy_never_255 (this : BearSSLClient)
    (host : option string) (fuel : nat) (w : World X) :
  let tr := connect_events indeterminate this host fuel w in
  hardware_rng_failed tr = true ->
  Forall below_255 (random_values tr) ->
  Forall (Forall below_255) (injected tr).
Proof.
  intros tr. subst tr.
  destruct (connect_events_shape indeterminate this host fuel w)
    as (tr & rs & Hs & E).
  rewrite E. clear E. unfold hardware_rng_failed.
  destruct Hs; [| | |destruct (client_auth_guard this)];
    rewrite ?injected_app, ?random_values_app, ?injected_polls,
      ?injected_randoms, ?random_values_polls, ?random_values_randoms;
    through_setup; zero_tests;
    cbn [injected random_values app]; rewrite ?app_nil_r;
    intros Hf Hr; try discriminate;
    (apply Forall_cons; [|apply Forall_nil]);
    apply Forall_forall; intros b Hb;
    apply in_map_iff in Hb; destruct Hb as (r & <- & Hin);
    apply to_uint8_below_255;
    apply (proj1 (Forall_forall _ _) Hr); apply in_map; exact Hin.
Qed.

Lemma read_array_store (a : array) (bs : list Z) :
  read_array (array_store a (List.length bs) bs) (List.length bs) = bs.
Proof.
  apply (nth_ext _ _ 0 0).
  - apply read_array_length.
  - intros k Hk. rewrite read_array_length in Hk. unfold read_array.
    rewrite (nth_indep _ 0 (array_store a (List.length bs) bs 0%nat))
      by (now rewrite length_map, length_seq).
    rewrite map_nth, seq_nth by assumption. cbn [Nat.add].
    unfold array_store.
    destruct (Nat.ltb_spec k (List.length bs)); [|lia].
    now apply nth_indep.
Qed.

(** X10: on the hardware path, when the secure element stored all 32 bytes,
    what is injected into the engine is exactly what it stored, and the
    software generator contributes nothing. *)
Theorem hardware_entropy_is_what_was_stored (this : BearSSLClient)
    (host : option string) (fuel : nat) (w : World X) :
  let tr := connect_events indeterminate this host fuel w in
  hardware_rng_succeeded tr = true ->
  Forall (fun bs => List.length bs = 32%nat) (outs is_ECCX08_random tr) ->
  injected tr = outs is_ECCX08_random tr /\ random_values tr = [].
Proof.
  intros tr. subst tr.
  destruct (connect_events_shape indeterminate this host fuel w)
    as (tr & rs & Hs & E).
  rewrite E. clear E. unfold hardware_rng_succeeded.
  destruct Hs; [| | |destruct (client_auth_guard this)];
    rewrite ?injected_app, ?random_values_app, ?injected_polls,
      ?injected_randoms, ?random_values_polls, ?random_values_randoms;
    through_setup; cbn [is_ECCX08_random filter map app fst snd]; zero_tests;
    cbn [injected random_values app]; rewrite ?app_nil_r;
    intros Hs Hl; try discriminate;
    inversion Hl as [|bs l Hbs _]; subst;
    (split; [|reflexivity]); f_equal;
    rewrite <- Hbs; apply read_array_store.
Qed.

Lemma after_first_app (p : Call -> bool) (a b : list (Call * Reply)) :
  existsb (fun e => p (fst e)) a = false ->
  after_first p (a ++ b) = after_first p b.
Proof.
  induction a as [|e a IH]; intros Ha; [reflexivity|].
  cbn [existsb] in Ha. apply orb_false_elim in Ha. destruct Ha as [He Ha].
  cbn [app after_first]. rewrite He. now apply IH.
Qed.

(** X11: [connectSSL] flushes the adapter exactly once, and every call it
    makes after that flush is a query of the engine state: the loop that
    waits for the handshake asks nothing of the adapter or the stream. *)
Theorem connectSSL_only_polls_after_flush (this : BearSSLClient)
    (host : option string) (fuel : nat) (w : World X) :
  let tr := connect_events indeterminate this host fuel w in
  List.length (filter (fun e => is_sslio_flush (fst e)) tr) = 1%nat /\
  exists rs, after_first is_sslio_flush tr = polls rs.
Proof.
  intros tr. subst tr.
  destruct (connect_events_shape indeterminate this host fuel w)
    as (tr & rs & Hs & E).
  rewrite E. clear E. split.
  - destruct Hs; [| | |destruct (client_auth_guard this)];
      through_setup; reflexivity.
  - exists rs.
    destruct Hs; [| | |destruct (client_auth_guard this)];
      repeat rewrite <- app_assoc;
      repeat (rewrite after_first_app
                by (through_setup; reflexivity));
      reflexivity.
Qed.

Lemma after_polls_ext (k : nat) : forall (w : World X),
  (forall x, snd (respond x br_ssl_engine_current_state) = x) ->
  ext (after_polls k w) = ext w.
Proof.
  induction k as [|k IH]; intros w Hp; [reflexivity|].
  cbn [after_polls]. rewrite IH by assumption. cbn. apply Hp.
Qed.

(** X12: when querying the engine state does not change the engine, the
    waiting loop can only see the state it saw first: if that state shows
    neither [BR_SSL_SENDAPP] nor [BR_SSL_CLOSED], [connectSSL] never
    returns. *)
Theorem connectSSL_hangs_on_undecided_state (this : BearSSLClient)
    (host : option string) (w : World X) (fuel : nat) :
  let w1 := snd (connectSSL_setup indeterminate this host w) in
  (forall x, snd (respond x br_ssl_engine_current_state) = x) ->
  ~ bit_set (polled_state 0 w1) BR_SSL_SENDAPP ->
  ~ bit_set (polled_state 0 w1) BR_SSL_CLOSED ->
  fst (connectSSL indeterminate this host fuel w) = None.
Proof.
  intros w1 Hp Hs Hc. unfold connectSSL. fold w1.
  assert (Hall : forall i, polled_state i w1 = polled_state 0 w1).
  { intros i. unfold polled_state, call. cbn [fst after_polls].
    now rewrite after_polls_ext. }
  destruct (handshake_loop_polls fuel w1) as [Hwait _].
  - intros i _. rewrite Hall. split; assumption.
  - now rewrite Hwait.
Qed.

End MoreProperties.

(** ** Properties of the rest of the stream interface *)

Section StreamProperties.

Context {X : Type} `{SX : StreamExternals X} `{Hdr : Headers}.
Variable indeterminate : array.

Lemma call_log (c : Call) (w : World (Logged X)) :
  log (snd (call c w)) = log w ++ [(inl c, fst (call c w))].
Proof. reflexivity. Qed.

Lemma call_stream_log (c : StreamCall) (w : World (Logged X)) :
  log (snd (call_stream c w)) = log w ++ [(inr c, fst (call_stream c w))].
Proof. reflexivity. Qed.

Lemma new_log_app (w w' : World (Logged X)) (l : list (AnyCall * Reply)) :
  log w' = log w ++ l -> new_log w w' = l.
Proof.
  intros E. unfold new_log. rewrite E.
  rewrite skipn_app, skipn_all, Nat.sub_diag. reflexivity.
Qed.

(** [available] never reports a negative count: it is the adapter's
    count when that is non-negative and 0 otherwise. *)
Theorem available_never_negative (w : World (Logged X)) :
  let r := ret (fst (call_stream br_sslio_read_available w)) in
  fst (available w) = Z.max 0 r /\ 0 <= fst (available w).
Proof.
  intros r. unfold available, bind, mret. fold r. cbn [fst snd].
  destruct (Z.ltb_spec r 0); cbn [fst]; lia.
Qed.

(** X13: [read()] and [peek()] return -1 unless the adapter delivered
    exactly one byte, and then the byte it stored; the result always lies
    between -1 and 255, so -1 is never a byte. *)
Theorem read_and_peek_one_byte (b_addr : Z) (w : World (Logged X)) :
  let rd := fst (call_stream (br_sslio_read b_addr 1) w) in
  let pk := fst (call_stream (br_sslio_peek b_addr 1) w) in
  INT_MIN <= ret rd <= INT_MAX ->
  INT_MIN <= ret pk <= INT_MAX ->
  (ret rd = 1 ->
     fst (read_byte indeterminate b_addr w)
     = to_uint8 (nth 0 (out rd) (indeterminate 0%nat))) /\
  (ret rd <> 1 -> fst (read_byte indeterminate b_addr w) = -1) /\
  (ret pk = 1 ->
     fst (peek indeterminate b_addr w)
     = to_uint8 (nth 0 (out pk) (indeterminate 0%nat))) /\
  (ret pk <> 1 -> fst (peek indeterminate b_addr w) = -1) /\
  -1 <= fst (read_byte indeterminate b_addr w) <= 255 /\
  -1 <= fst (peek indeterminate b_addr w) <= 255.
Proof.
  intros rd pk Hrd Hpk. unfold INT_MIN, INT_MAX in *.
  assert (Hone : forall v, - 2 ^ 31 <= v <= 2 ^ 31 - 1 ->
                           (to_size_t v =? 1) = (v =? 1)).
  { intros v Hv. unfold to_size_t, SIZE_MOD.
    destruct (Z.eqb_spec v 1) as [->|Hne]; [reflexivity|].
    apply Z.eqb_neq. intros Hm.
    pose proof (Z.div_mod v (2 ^ 32) ltac:(lia)) as Hd.
    rewrite Hm in Hd. lia. }
  assert (Hbyte : forall v, 0 <= to_uint8 v <= 255).
  { intros v. unfold to_uint8. pose proof (Z.mod_pos_bound v 256). lia. }
  unfold read_byte, peek, read, bind, mret. cbn [fst snd].
  fold rd pk. rewrite (Hone _ Hrd), (Hone _ Hpk).
  unfold array_store. cbn [Nat.ltb Nat.leb].
  destruct (Z.eqb_spec (ret rd) 1) as [Er|Er];
    destruct (Z.eqb_spec (ret pk) 1) as [Ep|Ep]; cbn [fst];
    repeat split; intros; try reflexivity; try contradiction;
    try (match goal with |- context [to_uint8 ?v] => pose proof (Hbyte v) end);
    lia.
Qed.

(** X14: [stop] on a stream that reports itself disconnected does nothing
    more: no state query, no close, no stop of the stream.  On a connected
    stream it queries the engine, closes the TLS session only if the state
    does not have the closed bit, and stops the stream last. *)
Theorem stop_calls (w : World (Logged X)) :
  let c := fst (call Client_connected w) in
  let w1 := snd (call Client_connected w) in
  let s := fst (call br_ssl_engine_current_state w1) in
  let w2 := snd (call br_ssl_engine_current_state w1) in
  (ret c = 0 -> new_log w (snd (stop w)) = [(inl Client_connected, c)]) /\
  (ret c <> 0 -> bit_set (ret s) BR_SSL_CLOSED ->
     new_log w (snd (stop w))
     = [(inl Client_connected, c); (inl br_ssl_engine_current_state, s);
        (inr Client_stop, fst (call_stream Client_stop w2))]) /\
  (ret c <> 0 -> ~ bit_set (ret s) BR_SSL_CLOSED ->
     let w3 := snd (call_stream br_sslio_close w2) in
     new_log w (snd (stop w))
     = [(inl Client_connected, c); (inl br_ssl_engine_current_state, s);
        (inr br_sslio_close, fst (call_stream br_sslio_close w2));
        (inr Client_stop, fst (call_stream Client_stop w3))]).
Proof.
  intros c w1 s w2. unfold stop, bind, mret. cbn [fst snd]. fold c w1.
  split; [|split].
  - intros Hc. apply Z.eqb_eq in Hc. rewrite Hc. apply new_log_app.
    reflexivity.
  - intros Hc Hs. apply Z.eqb_neq in Hc. rewrite Hc. fold s w2.
    unfold bit_set in Hs. apply Z.eqb_neq in Hs. rewrite Hs. cbn [fst snd].
    apply new_log_app. rewrite call_stream_log. subst w2. rewrite call_log.
    subst w1. rewrite call_log, <- !app_assoc. reflexivity.
  - intros Hc Hs. apply Z.eqb_neq in Hc. rewrite Hc. fold s w2.
    unfold bit_set in Hs.
    assert (Hs' : (Z.land (ret s) BR_SSL_CLOSED =? 0) = true)
      by (apply Z.eqb_eq; lia).
    rewrite Hs'. cbn [fst snd].
    set (w3 := snd (call_stream br_sslio_close w2)).
    apply new_log_app. rewrite call_stream_log. subst w3.
    rewrite call_stream_log. subst w2. rewrite call_log.
    subst w1. rewrite call_log, <- !app_assoc. reflexivity.
Qed.

(** X15: [connected] and [stop] read the engine state differently.  They
    agree when the state is exactly [BR_SSL_CLOSED] (not connected, nothing
    to close) and when the closed bit is clear (connected, TLS close sent);
    for a state that has the closed bit and another bit, [connected] reports
    1 and yet [stop] sends no TLS close. *)
Theorem connected_and_stop_on_closed_bit (w : World (Logged X)) :
  let c := fst (call Client_connected w) in
  let w1 := snd (call Client_connected w) in
  let s := ret (fst (call br_ssl_engine_current_state w1)) in
  let closes :=
    existsb (fun e => match fst e with inr br_sslio_close => true | _ => false end)
            (new_log w (snd (stop w))) in
  BR_SSL_CLOSED <> 0 ->
  ret c <> 0 ->
  (s = BR_SSL_CLOSED -> fst (connected w) = 0 /\ closes = false) /\
  (~ bit_set s BR_SSL_CLOSED -> fst (connected w) = 1 /\ closes = true) /\
  (bit_set s BR_SSL_CLOSED -> s <> BR_SSL_CLOSED ->
     fst (connected w) = 1 /\ closes = false).
Proof.
  intros c w1 s closes Hk Hc. subst closes.
  assert (Hcon : fst (connected w) = if s =? BR_SSL_CLOSED then 0 else 1).
  { unfold connected, bind, mret. cbn [fst snd]. fold c.
    rewrite (proj2 (Z.eqb_neq _ _) Hc). cbn beta. fold w1. fold s.
    destruct (s =? BR_SSL_CLOSED); reflexivity. }
  assert (Hlog : new_log w (snd (stop w))
                 = [(inl Client_connected, c)] ++
                   [(inl br_ssl_engine_current_state,
                     fst (call br_ssl_engine_current_state w1))] ++
                   (if Z.land s BR_SSL_CLOSED =? 0
                    then [(inr br_sslio_close,
                           fst (call_stream br_sslio_close
                                  (snd (call br_ssl_engine_current_state w1))))]
                    else []) ++
                   [(inr Client_stop,
                     fst (call_stream Client_stop
                            (if Z.land s BR_SSL_CLOSED =? 0
                             then snd (call_stream br_sslio_close
                                    (snd (call br_ssl_engine_current_state w1)))
                             else snd (call br_ssl_engine_current_state w1))))]).
  { apply new_log_app. unfold stop, bind, mret. cbn [fst snd]. fold c.
    rewrite (proj2 (Z.eqb_neq _ _) Hc). cbn beta. fold w1. fold s.
    destruct (Z.land s BR_SSL_CLOSED =? 0); cbn [fst snd];
      rewrite ?call_stream_log, call_log; subst w1;
      rewrite call_log, <- !app_assoc; reflexivity. }
  rewrite Hcon, Hlog. unfold bit_set.
  split; [|split].
  - intros Es. rewrite Es, Z.land_diag, Z.eqb_refl.
    rewrite (proj2 (Z.eqb_neq _ _) Hk). split; reflexivity.
  - intros Hs. assert (Hz : Z.land s BR_SSL_CLOSED = 0) by lia.
    rewrite Hz. cbn [Z.eqb].
    destruct (Z.eqb_spec s BR_SSL_CLOSED) as [Es|Es]; [|split; reflexivity].
    rewrite Es, Z.land_diag in Hz. contradiction.
  - intros Hs Hne. rewrite (proj2 (Z.eqb_neq _ _) Hs).
    rewrite (proj2 (Z.eqb_neq _ _) Hne). split; reflexivity.
Qed.

End StreamProperties.

(** ** More concrete runs *)

Section MoreRuns.

Import Mock.
#[local] Existing Instance MockStream.externals.

(** An adapter with room for 3 bytes keeps to its contract; a write of 5
    bytes returns. *)
Lemma write_terminates_chunked :
  exists v,
    fst (write (Ext := Steady.externals 3 8) 6 0 5 Steady.start) = Some v /\
    0 <= v < 10.
Proof.
  apply (write_terminates_under_contract (Ext := Steady.externals 3 8)
           5 0 Steady.start).
  - intros u src. cbv zeta. right. vm_compute. split; discriminate.
  - vm_compute. split; [reflexivity | discriminate].
Defined.

(** An adapter that never takes a byte: the write is still going after 50
    rounds. *)
Lemma write_spins_on_full_adapter :
  fst (write (Ext := Steady.externals 0 8) 50 0 4 Steady.start) = None.
Proof.
  apply (write_spins_without_progress (Ext := Steady.externals 0 8)
           4 0 Steady.start 50).
  - intros u src. reflexivity.
  - lia.
Defined.

(** One byte written to an adapter with room. *)
Lemma write_byte_accepted :
  fst (write_byte (Ext := Steady.externals 1 8) 2 0 Steady.start) = Some 1.
Proof.
  destruct (write_byte_zero_or_one (Ext := Steady.externals 1 8)
              0 0 Steady.start) as [[H|H] _].
  - right. reflexivity.
  - vm_compute in H. discriminate.
  - exact H.
Defined.

(** Five bytes through an adapter with room for three: six are taken. *)
Lemma write_overshoots_chunked :
  fst (write (Ext := Steady.externals 3 8) 3 0 5 Steady.start) = Some 6.
Proof.
  destruct (write_overshoots_after_short_write (Ext := Steady.externals 3 8)
              0 0 5 Steady.start) as (Hw & _).
  - vm_compute. split; reflexivity.
  - vm_compute. split; [reflexivity | discriminate].
  - vm_compute. discriminate.
  - exact (f_equal fst Hw).
Defined.

(** Connecting to "broker" by name resets the engine with that name. *)
Lemma connect_by_name_sends_name :
  resets (new_events (start healthy)
            (snd (connect_host zeros BearSSLClient_new "broker" 8883 5
                    (start healthy))))
  = [(Some "broker"%string, 0)].
Proof.
  apply (proj2 (connect_resets_with_server_name zeros BearSSLClient_new
                  167772161 "broker" 8883 5 (start healthy))).
  vm_compute. discriminate.
Defined.

(** Without a secure element [ECCX08.locked] and [ECCX08.random] are never
    called. *)
Lemma no_secure_element_stops_at_begin :
  let tr := connect_events zeros BearSSLClient_new None 5
              (start no_secure_element) in
  results is_ECCX08_locked tr = [] /\ results is_ECCX08_random tr = [].
Proof.
  cbv zeta.
  destruct (hardware_test_short_circuits zeros BearSSLClient_new None 5
              (start no_secure_element)) as (rb & Hb & Hzero & _).
  apply Hzero. vm_compute in Hb. congruence.
Defined.

(** The software generator of [no_secure_element] returns 7 every time. *)
Lemma software_entropy_of_sevens :
  Forall (Forall below_255)
    (injected (connect_events zeros BearSSLClient_new None 5
                 (start no_secure_element))).
Proof.
  apply software_entropy_never_255.
  - reflexivity.
  - replace (random_values _) with (repeat 7 32) by (vm_compute; reflexivity).
    apply Forall_forall. intros v Hv. apply repeat_spec in Hv. subst v.
    unfold below_255. lia.
Defined.

(** The secure element of [healthy] stores 32 bytes of 170. *)
Lemma hardware_entropy_of_healthy :
  injected (connect_events zeros BearSSLClient_new None 5 (start healthy))
  = [repeat 170 32].
Proof.
  destruct (hardware_entropy_is_what_was_stored zeros BearSSLClient_new None 5
              (start healthy)) as [Hi _].
  - reflexivity.
  - vm_compute. constructor; [reflexivity | constructor].
  - rewrite Hi. reflexivity.
Defined.

(** An engine that stays in state 0: the handshake never completes. *)
Lemma connectSSL_hangs_in_state_zero :
  fst (connectSSL (Ext := Steady.externals 3 0) zeros BearSSLClient_new None
         100 Steady.start) = None.
Proof.
  apply (connectSSL_hangs_on_undecided_state (Ext := Steady.externals 3 0)
           zeros BearSSLClient_new None Steady.start 100).
  - intros []. reflexivity.
  - vm_compute. intros H. apply H. reflexivity.
  - vm_compute. intros H. apply H. reflexivity.
Defined.

(** Reading the byte 65, and peeking when the adapter reports an error. *)
Lemma read_and_peek_runs :
  fst (read_byte zeros 0 (MockStream.start (MockStream.one_byte healthy))) = 65 /\
  fst (peek zeros 0 (MockStream.start (MockStream.drained healthy))) = -1.
Proof.
  destruct (read_and_peek_one_byte zeros 0
              (MockStream.start (MockStream.one_byte healthy)))
    as (Hr & _); [vm_compute; split; discriminate ..|].
  destruct (read_and_peek_one_byte zeros 0
              (MockStream.start (MockStream.drained healthy)))
    as (_ & _ & _ & Hp & _); [vm_compute; split; discriminate ..|].
  rewrite Hr, Hp; [split; reflexivity | vm_compute; discriminate | reflexivity].
Defined.

(** [stop] on an unplugged stream. *)
Lemma stop_unplugged :
  let w := MockStream.start (MockStream.one_byte unplugged) in
  new_log w (snd (stop w)) = [(inl Client_connected, plain 0)].
Proof.
  cbv zeta.
  destruct (stop_calls (MockStream.start (MockStream.one_byte unplugged)))
    as (Hoff & _).
  rewrite Hoff; reflexivity.
Defined.

(** An engine state of 3 has the closed bit and one more. *)
Lemma connected_and_stop_in_state_three :
  let w := MockStream.start (MockStream.one_byte MockStream.closing) in
  fst (connected w) = 1 /\
  existsb (fun e => match fst e with inr br_sslio_close => true | _ => false end)
          (new_log w (snd (stop w))) = false.
Proof.
  cbv zeta.
  destruct (connected_and_stop_on_closed_bit
              (MockStream.start (MockStream.one_byte MockStream.closing)))
    as (_ & _ & Hmix).
  - discriminate.
  - vm_compute. discriminate.
  - apply Hmix; vm_compute; discriminate.
Defined.

End MoreRuns.
